(** * cryptokit.transaction: a shallow embedding and its verification

    The module [cryptokit/transaction.py] defines the value types [Input]
    and [Output] and the mutable aggregate [Transaction] with its parser
    ([disassemble]), its serialiser ([assemble]) and the lazily cached
    hash accessors.

    Python objects are mutable and exceptions leave earlier mutations in
    place, so methods are embedded as state transformers over the object
    that also report how they ended: [M A := Transaction -> result A *
    Transaction].  Byte strings are [list byte]; Python integers are [Z];
    lengths and counts are [N]. *)

From Stdlib Require Import ZArith NArith Nnat List Lia String Bool.
From Stdlib.Strings Require Import Byte.
Import ListNotations.

Local Open Scope Z_scope.

(** ** Exceptions and results *)

Inductive exn : Set :=
| AttributeError
| TypeError
| IndexError
| StructError
| AssertionError.

Inductive result (A : Type) : Type :=
| Ok (a : A)
| Raise (e : exn).

Arguments Ok {A} a.
Arguments Raise {A} e.

Definition is_ok {A} (r : result A) : bool :=
  match r with Ok _ => true | Raise _ => false end.

(** ** Byte strings *)

Definition bytes := list byte.

Definition Z_of_byte (b : byte) : Z := Z.of_N (Byte.to_N b).

Definition byte_of_Z (z : Z) : byte :=
  match Byte.of_N (Z.to_N (z mod 256)) with
  | Some b => b
  | None => x00
  end.

Definition bytes_eqb (a b : bytes) : bool :=
  if list_eq_dec Byte.byte_eq_dec a b then true else false.

(** Python slices [data[:n]], [data[n:]] and [data[a:b]] on byte strings:
    out-of-range bounds are clipped, never an error. *)
Definition upto (n : nat) (data : bytes) : bytes := firstn n data.
Definition from (n : nat) (data : bytes) : bytes := skipn n data.
Definition slice (a b : nat) (data : bytes) : bytes :=
  firstn (b - a) (skipn a data).

(** ** [struct.pack] and [struct.unpack], little-endian standard sizes *)

Module struct.

Inductive fmt : Set :=
| fmt_B   (* '<B' unsigned, 1 byte *)
| fmt_H   (* '<H' unsigned, 2 bytes *)
| fmt_L   (* '<L' unsigned, 4 bytes *)
| fmt_Q   (* '<Q' unsigned, 8 bytes *)
| fmt_i.  (* '<i' signed, 4 bytes *)

Definition width (f : fmt) : nat :=
  match f with
  | fmt_B => 1 | fmt_H => 2 | fmt_L => 4 | fmt_Q => 8 | fmt_i => 4
  end%nat.

Definition signed (f : fmt) : bool :=
  match f with fmt_i => true | _ => false end.

Definition modulus (f : fmt) : Z := 2 ^ (8 * Z.of_nat (width f)).

Definition lo (f : fmt) : Z := if signed f then - (modulus f / 2) else 0.
Definition hi (f : fmt) : Z :=
  if signed f then modulus f / 2 else modulus f.

Definition in_range (f : fmt) (v : Z) : bool :=
  (lo f <=? v) && (v <? hi f).

Fixpoint le_bytes (n : nat) (v : Z) : bytes :=
  match n with
  | O => []
  | S k => byte_of_Z v :: le_bytes k (v / 256)
  end.

Fixpoint le_value (b : bytes) : Z :=
  match b with
  | [] => 0
  | x :: r => Z_of_byte x + 256 * le_value r
  end.

(** [pack(fmt, v)]: [struct.error] when [v] does not fit the format. *)
Definition pack (f : fmt) (v : Z) : result bytes :=
  if in_range f v then Ok (le_bytes (width f) (v mod modulus f))
  else Raise StructError.

(** [unpack(fmt, b)[0]]: [struct.error] unless [b] has exactly the
    format's size. *)
Definition unpack (f : fmt) (b : bytes) : result Z :=
  if (List.length b =? width f)%nat then
    let u := le_value b in
    Ok (if signed f && (modulus f / 2 <=? u) then u - modulus f else u)
  else Raise StructError.

End struct.

Import struct.

(** Modelled from the spec: [BitcoinEncoding.funpack], the helper of the
    base class (defined in the package's [__init__], which is not part of
    the translated module); the spec gives it as
    [fixed_unpack(format, bytes) -> value], the single item that
    [struct.unpack] yields. *)
Definition funpack (f : fmt) (b : bytes) : result Z := unpack f b.

(** [binascii.hexlify]: two lower-case hexadecimal digits per byte. *)
Definition hexdigit (n : Z) : byte :=
  byte_of_Z (if n <? 10 then 48 + n else 87 + n).

Definition hexlify (b : bytes) : bytes :=
  flat_map (fun x => [hexdigit (Z_of_byte x / 16);
                      hexdigit (Z_of_byte x mod 16)]) b.

(** ** Sequencing of fallible pure code *)

Definition bindR {A B} (r : result A) (k : A -> result B) : result B :=
  match r with
  | Ok a => k a
  | Raise e => Raise e
  end.

Notation "'let?' x ':=' r 'in' k" := (bindR r (fun x => k))
  (at level 10, x name, r at level 100, k at level 200).
Notation "'let?' ' p ':=' r 'in' k" :=
  (bindR r (fun x => match x with p => k end))
  (at level 10, p pattern, r at level 100, k at level 200).

(** ** Collaborators of the module *)

(** Modelled from the spec: the base class [BitcoinEncoding] (package
    [__init__], not part of the translated module).  The spec lists its
    variable-length integer primitives as
    [varlen_encode(value) -> bytes] and
    [varlen_decode(buffer) -> (value, remaining_buffer)], a
    self-describing encoding that is assumed correct: decoding reads back
    what encoding wrote and hands over the rest of the buffer, and it
    looks at nothing beyond the bytes it consumes. *)
Class BitcoinEncoding : Type := {
  varlen_encode : N -> result bytes;
  varlen_decode : bytes -> result (N * bytes);
  varlen_decode_encode :
    forall (n : N) (enc rest : bytes),
      varlen_encode n = Ok enc -> varlen_decode (enc ++ rest) = Ok (n, rest);
  varlen_decode_app :
    forall (d rest extra : bytes) (n : N),
      varlen_decode d = Ok (n, rest) ->
      varlen_decode (d ++ extra) = Ok (n, rest ++ extra)
}.

(** Functions the module imports from elsewhere: [hashlib.sha256]
    followed by [.digest()], [dark.ser_string] and
    [base58.address_bytes]. *)
Class Imported : Type := {
  sha256 : bytes -> bytes;
  ser_string : bytes -> bytes;
  address_bytes : string -> result bytes
}.

(** ** The value types *)

Record Input : Set := {
  prevout_hash : bytes;
  prevout_idx : Z;
  script_sig : bytes;
  seqno : Z
}.

Record Output : Set := {
  amount : Z;
  script_pub_key : bytes
}.

(** [Output.to_address] *)
Definition to_address {X : Imported} (amount : Z) (address : string)
  : result Output :=
  let? raw_addr := address_bytes address in
  Ok {| amount := amount;
        script_pub_key := [x76; xa9; x14] ++ raw_addr ++ [x88; xac] |}.

(** ** The transaction object *)

Record Transaction : Set := {
  _raw : option bytes;
  inputs : list Input;
  outputs : list Output;
  locktime : Z;
  n_time : option Z;
  fees : option Z;
  version : option Z;
  _hash : option bytes;
  transaction_message : option bytes
}.

Definition _nullprev : bytes := repeat x00 32.

Definition set_raw (v : option bytes) (t : Transaction) : Transaction :=
  {| _raw := v; inputs := inputs t; outputs := outputs t;
     locktime := locktime t; n_time := n_time t; fees := fees t;
     version := version t; _hash := _hash t;
     transaction_message := transaction_message t |}.

Definition set_inputs (v : list Input) (t : Transaction) : Transaction :=
  {| _raw := _raw t; inputs := v; outputs := outputs t;
     locktime := locktime t; n_time := n_time t; fees := fees t;
     version := version t; _hash := _hash t;
     transaction_message := transaction_message t |}.

Definition set_outputs (v : list Output) (t : Transaction) : Transaction :=
  {| _raw := _raw t; inputs := inputs t; outputs := v;
     locktime := locktime t; n_time := n_time t; fees := fees t;
     version := version t; _hash := _hash t;
     transaction_message := transaction_message t |}.

Definition set_locktime (v : Z) (t : Transaction) : Transaction :=
  {| _raw := _raw t; inputs := inputs t; outputs := outputs t;
     locktime := v; n_time := n_time t; fees := fees t;
     version := version t; _hash := _hash t;
     transaction_message := transaction_message t |}.

Definition set_fees (v : option Z) (t : Transaction) : Transaction :=
  {| _raw := _raw t; inputs := inputs t; outputs := outputs t;
     locktime := locktime t; n_time := n_time t; fees := v;
     version := version t; _hash := _hash t;
     transaction_message := transaction_message t |}.

Definition set_version (v : option Z) (t : Transaction) : Transaction :=
  {| _raw := _raw t; inputs := inputs t; outputs := outputs t;
     locktime := locktime t; n_time := n_time t; fees := fees t;
     version := v; _hash := _hash t;
     transaction_message := transaction_message t |}.

Definition set_hash (v : option bytes) (t : Transaction) : Transaction :=
  {| _raw := _raw t; inputs := inputs t; outputs := outputs t;
     locktime := locktime t; n_time := n_time t; fees := fees t;
     version := version t; _hash := v;
     transaction_message := transaction_message t |}.

(** ** Methods: state and exceptions *)

Definition M (A : Type) : Type := Transaction -> result A * Transaction.

Definition ret {A} (a : A) : M A := fun self => (Ok a, self).

Definition raise {A} (e : exn) : M A := fun self => (Raise e, self).

Definition lift {A} (r : result A) : M A := fun self => (r, self).

Definition bind {A B} (m : M A) (k : A -> M B) : M B :=
  fun self =>
    match m self with
    | (Ok a, self') => k a self'
    | (Raise e, self') => (Raise e, self')
    end.

Definition get : M Transaction := fun self => (Ok self, self).

Definition modify (f : Transaction -> Transaction) : M unit :=
  fun self => (Ok tt, f self).

Definition when (c : bool) (m : M unit) : M unit :=
  if c then m else ret tt.

Notation "x <- m ;; k" := (bind m (fun x => k))
  (at level 61, m at next level, right associativity).
Notation "' p <- m ;; k" := (bind m (fun x => match x with p => k end))
  (at level 61, p pattern, m at next level, right associativity).
Notation "m ;; k" := (bind m (fun _ => k))
  (at level 61, right associativity).

(** Truth value of an optional integer ([if fees:]) and of an optional
    byte string ([if raw:]). *)
Definition truthy_int (v : option Z) : bool :=
  match v with
  | Some z => negb (z =? 0)
  | None => false
  end.

Definition truthy_bytes (v : option bytes) : bool :=
  match v with
  | Some (_ :: _) => true
  | _ => false
  end.

Section Methods.

Context {E : BitcoinEncoding} {X : Imported}.

(** *** [Transaction.disassemble] *)

(** The loop [for i in range(input_count)], lines 93-110: each round
    appends to [self.inputs] and hands the shortened buffer on. *)
Fixpoint disassemble_inputs (input_count : nat) (data : bytes) : M bytes :=
  match input_count with
  | O => ret data
  | S k =>
      let prevout_hash := upto 32 data in
      prevout_idx <- lift (funpack fmt_L (slice 32 36 data)) ;;
      '(ss_len, data) <- lift (varlen_decode (from 36 data)) ;;
      let ss_len := N.to_nat ss_len in
      let script_sig := upto ss_len data in
      seqno <- lift (funpack fmt_L (slice ss_len (ss_len + 4) data)) ;;
      let data := from (ss_len + 4) data in
      modify (fun self =>
        set_inputs (inputs self ++
                    [{| prevout_hash := prevout_hash;
                        prevout_idx := prevout_idx;
                        script_sig := script_sig;
                        seqno := seqno |}]) self) ;;
      disassemble_inputs k data
  end.

(** The loop [for i in range(output_count)], lines 114-121. *)
Fixpoint disassemble_outputs (output_count : nat) (data : bytes) : M bytes :=
  match output_count with
  | O => ret data
  | S k =>
      amount <- lift (funpack fmt_Q (upto 8 data)) ;;
      '(ps_len, data) <- lift (varlen_decode (from 8 data)) ;;
      let ps_len := N.to_nat ps_len in
      let pk_script := upto ps_len data in
      let data := from ps_len data in
      modify (fun self =>
        set_outputs (outputs self ++
                     [{| amount := amount;
                         script_pub_key := pk_script |}]) self) ;;
      disassemble_outputs k data
  end.

(** Lines 85-121: version, inputs and outputs; the result is the part of
    the buffer that is left for the lock time. *)
Definition disassemble_fields (data : bytes) : M bytes :=
  version <- lift (funpack fmt_L (upto 4 data)) ;;
  modify (set_version (Some version)) ;;
  '(input_count, data) <- lift (varlen_decode (from 4 data)) ;;
  modify (set_inputs []) ;;
  data <- disassemble_inputs (N.to_nat input_count) data ;;
  '(output_count, data) <- lift (varlen_decode data) ;;
  modify (set_outputs []) ;;
  disassemble_outputs (N.to_nat output_count) data.

(** Lines 123-129: lock time, cache reset, the check for trailing data
    and [dump_raw]. *)
Definition disassemble_locktime (dump_raw : bool) (data : bytes) : M unit :=
  locktime <- lift (funpack fmt_L (upto 4 data)) ;;
  modify (set_locktime locktime) ;;
  modify (set_hash None) ;;
  (if (List.length data =? 4)%nat then ret tt else raise AssertionError) ;;
  when dump_raw (modify (set_raw None)).

(** [disassemble(self, raw=None, dump_raw=False, fees=None)]; it returns
    [self], which is the final state here.  Subscripting a missing
    [_raw] is a [TypeError]. *)
Definition disassemble (raw : option bytes) (dump_raw : bool)
    (fees : option Z) : M unit :=
  when (truthy_int fees) (modify (set_fees fees)) ;;
  when (truthy_bytes raw) (modify (set_raw raw)) ;;
  self <- get ;;
  match _raw self with
  | None => raise TypeError
  | Some data =>
      data <- disassemble_fields data ;;
      disassemble_locktime dump_raw data
  end.

(** *** [Transaction.__init__] *)

(** What a caller may hand over as [raw]. *)
Inductive pyarg : Set :=
| PyNone
| PyNewbytes (b : bytes)
| PyBytearray (b : bytes)
| PyStr (s : string)
| PyInt (z : Z).

Definition truthy (v : pyarg) : bool :=
  match v with
  | PyNone => false
  | PyNewbytes b | PyBytearray b => negb (Nat.eqb (List.length b) 0)
  | PyStr s => negb (Nat.eqb (String.length s) 0)
  | PyInt z => negb (z =? 0)
  end.

Definition __init__ (raw : pyarg) (fees : option Z)
    (disassemble_now pos messages : bool) : result Transaction :=
  let? _raw :=
    if truthy raw then
      match raw with
      | PyNewbytes b | PyBytearray b => Ok (Some b)
      | _ => Raise AttributeError
      end
    else Ok None in
  let self :=
    {| _raw := _raw;
       inputs := [];
       outputs := [];
       locktime := 0;
       n_time := if pos then Some 0 else None;
       fees := fees;
       version := None;
       _hash := None;
       transaction_message := if messages then Some [] else None |} in
  if disassemble_now then
    match disassemble None false None self with
    | (Ok _, self) => Ok self
    | (Raise e, _) => Raise e
    end
  else Ok self.

(** *** [Transaction.is_coinbase] *)

Definition is_coinbase : M bool :=
  self <- get ;;
  match inputs self with
  | [] => raise IndexError
  | first :: _ => ret (bytes_eqb (prevout_hash first) _nullprev)
  end.

(** *** [Transaction.assemble] *)

(** The loop over [self.inputs], lines 160-166, on the local variables
    [data] and [split_point]. *)
Fixpoint assemble_inputs (ins : list Input) (data : bytes)
    (split_point : option nat) : result (bytes * option nat) :=
  match ins with
  | [] => Ok (data, split_point)
  | i :: ins =>
      let data := data ++ prevout_hash i in
      let? idx := pack fmt_L (prevout_idx i) in
      let data := data ++ idx in
      let? len := varlen_encode (N.of_nat (List.length (script_sig i))) in
      let data := data ++ len in
      let data := data ++ script_sig i in
      let split_point := Some (List.length data) in
      let? seq := pack fmt_L (seqno i) in
      let data := data ++ seq in
      assemble_inputs ins data split_point
  end.

(** The loop over [self.outputs], lines 169-172. *)
Fixpoint assemble_outputs (outs : list Output) (data : bytes)
    : result bytes :=
  match outs with
  | [] => Ok data
  | o :: outs =>
      let? amt := pack fmt_Q (amount o) in
      let data := data ++ amt in
      let? len := varlen_encode (N.of_nat (List.length (script_pub_key o))) in
      let data := data ++ len in
      let data := data ++ script_pub_key o in
      assemble_outputs outs data
  end.

(** Lines 154-159: version, the optional time stamp and the input
    count. *)
Definition assemble_header (self : Transaction) : result bytes :=
  let? data :=
    match version self with
    | Some v => pack fmt_L v
    | None => Raise StructError
    end in
  let? data :=
    match n_time self with
    | Some t => let? nt := pack fmt_i t in Ok (data ++ nt)
    | None => Ok data
    end in
  let? cnt := varlen_encode (N.of_nat (List.length (inputs self))) in
  Ok (data ++ cnt).

(** Lines 168-177: output count, outputs, lock time and the optional
    message, appended to what has been written so far. *)
Definition assemble_rest (self : Transaction) (data : bytes)
    : result bytes :=
  let? cnt := varlen_encode (N.of_nat (List.length (outputs self))) in
  let data := data ++ cnt in
  let? data := assemble_outputs (outputs self) data in
  let? lt := pack fmt_L (locktime self) in
  let data := data ++ lt in
  match transaction_message self with
  | Some m => Ok (data ++ ser_string m)
  | None => Ok data
  end.

Definition assemble_data (self : Transaction)
    : result (bytes * option nat) :=
  let? data := assemble_header self in
  let split_point := None in
  let? '(data, split_point) := assemble_inputs (inputs self) data split_point in
  let? data := assemble_rest self data in
  Ok (data, split_point).

(** What [assemble] returns: the buffer, or its two parts. *)
Inductive assembled : Set :=
| Whole (data : bytes)
| Halves (first second : bytes).

(** [data[:split_point]] and [data[split_point:]]; a bound of [None]
    leaves that end of the slice open. *)
Definition slice_to (split_point : option nat) (data : bytes) : bytes :=
  match split_point with
  | Some n => upto n data
  | None => data
  end.

Definition slice_from (split_point : option nat) (data : bytes) : bytes :=
  match split_point with
  | Some n => from n data
  | None => data
  end.

Definition default_version (self : Transaction) : Transaction :=
  match version self with
  | None =>
      match transaction_message self with
      | Some _ => set_version (Some 2) self
      | None => set_version (Some 1) self
      end
  | Some _ => self
  end.

Definition assemble (split : bool) : M assembled :=
  modify default_version ;;
  self <- get ;;
  '(data, split_point) <- lift (assemble_data self) ;;
  modify (set_raw (Some data)) ;;
  modify (set_hash None) ;;
  if split then ret (Halves (slice_to split_point data)
                            (slice_from split_point data))
  else ret (Whole data).

(** *** The properties [raw], [hash], [behash], [lehexhash], [behexhash] *)

Definition raw : M (option bytes) :=
  self <- get ;;
  match _raw self with
  | None => assemble false ;; ret tt
  | Some _ => ret tt
  end ;;
  self <- get ;;
  ret (_raw self).

(** [sha256] of [None] is a [TypeError]. *)
Definition hash : M bytes :=
  self <- get ;;
  match _hash self with
  | None =>
      match _raw self with
      | None => raise TypeError
      | Some data =>
          let h := rev (sha256 (sha256 data)) in
          modify (set_hash (Some h)) ;;
          ret h
      end
  | Some h => ret h
  end.

Definition behash : M bytes :=
  h <- hash ;; ret (rev h).

Definition lehexhash : M bytes :=
  h <- hash ;; ret (hexlify h).

Definition behexhash : M bytes :=
  h <- hash ;; ret (hexlify (rev h)).

End Methods.

(** ** Well-formed field values *)

Section WellFormed.

Context {E : BitcoinEncoding}.

Definition encodable (n : nat) : bool := is_ok (varlen_encode (N.of_nat n)).

(** An input as the docstring of [Input] asks for it: a 32-byte hash,
    32-bit integers, and a script whose length can be written. *)
Definition valid_input (i : Input) : bool :=
  (List.length (prevout_hash i) =? 32)%nat
  && in_range fmt_L (prevout_idx i)
  && encodable (List.length (script_sig i))
  && in_range fmt_L (seqno i).

Definition valid_output (o : Output) : bool :=
  in_range fmt_Q (amount o)
  && encodable (List.length (script_pub_key o)).

Definition in_range_opt (f : fmt) (v : option Z) : bool :=
  match v with
  | Some z => in_range f z
  | None => true
  end.

(** A transaction whose fields all fit their wire widths. *)
Definition well_formed (t : Transaction) : bool :=
  forallb valid_input (inputs t)
  && forallb valid_output (outputs t)
  && in_range fmt_L (locktime t)
  && in_range_opt fmt_L (version t)
  && in_range_opt fmt_i (n_time t)
  && encodable (List.length (inputs t))
  && encodable (List.length (outputs t)).

End WellFormed.

(** The cached hash, when there is one, is the hash of the stored
    buffer. *)
Definition hash_coherent {X : Imported} (t : Transaction) : bool :=
  match _hash t with
  | None => true
  | Some h =>
      match _raw t with
      | Some data => bytes_eqb h (rev (sha256 (sha256 data)))
      | None => false
      end
  end.

(** ** The standard instances of the collaborators *)

(** Modelled from the spec: the variable-length integer of the wire
    format ("a self-describing integer encoding whose byte width depends
    on magnitude"), in the reference protocol's layout: one byte below
    [0xfd], else a marker byte [0xfd], [0xfe] or [0xff] followed by the
    value in 2, 4 or 8 little-endian bytes. *)
Definition compact_encode (number : N) : result bytes :=
  let n := Z.of_N number in
  if n <? 0xfd then pack fmt_B n
  else if n <=? 0xffff then let? p := pack fmt_H n in Ok (xfd :: p)
  else if n <=? 0xffffffff then let? p := pack fmt_L n in Ok (xfe :: p)
  else let? p := pack fmt_Q n in Ok (xff :: p).

Definition compact_decode (byte_string : bytes) : result (N * bytes) :=
  match byte_string with
  | [] => Raise IndexError
  | b0 :: _ =>
      if Byte.eqb b0 xff then
        let? v := funpack fmt_Q (slice 1 9 byte_string) in
        Ok (Z.to_N v, from 9 byte_string)
      else if Byte.eqb b0 xfe then
        let? v := funpack fmt_L (slice 1 5 byte_string) in
        Ok (Z.to_N v, from 5 byte_string)
      else if Byte.eqb b0 xfd then
        let? v := funpack fmt_H (slice 1 3 byte_string) in
        Ok (Z.to_N v, from 3 byte_string)
      else Ok (Byte.to_N b0, from 1 byte_string)
  end.

(** Modelled from the spec: [dark.ser_string], the "generic
    length-prefixed byte-string serializer" of the message field, with
    the same length prefix as above. *)
Definition prefixed_string (s : bytes) : bytes :=
  match compact_encode (N.of_nat (List.length s)) with
  | Ok p => p ++ s
  | Raise _ => s
  end.
(** Stand-ins for the imported functions, to run the methods on sample
    objects: a 32-byte function of the input in place of the digest, the
    length-prefixed serialiser above, and a decoder that maps every
    address to twenty bytes [0x11]. *)
Definition sample_imports : Imported := {|
  sha256 := fun b => le_bytes 32 (le_value b + 1);
  ser_string := prefixed_string;
  address_bytes := fun _ => Ok (repeat x11 20)
|}.

(** The buffer of the spec's concrete scenario: version 1, one input
    with the null hash, index [ffffffff], script [5100] and sequence
    [ffffffff], one output of amount 0 with an empty script, lock
    time 0. *)
Definition scenario_buffer : bytes :=
  [x01; x00; x00; x00; x01] ++ repeat x00 32
  ++ [xff; xff; xff; xff; x02; x51; x00; xff; xff; xff; xff; x01]
  ++ repeat x00 8 ++ [x00; x00; x00; x00; x00].

(** ** The remaining methods *)

(** [bitcoin.script.create_push_script], imported by the module: it
    turns a list of items (integers or byte strings) into script bytes,
    or raises. *)
Class Scripting : Type := {
  item : Type;
  create_push_script : list item -> result bytes
}.

(** [Input.coinbase(height, addtl_push=None, extra_script_sig=b'')];
    [if not addtl_push] replaces [None] and the empty list by a new
    empty list. *)
Definition coinbase {S : Scripting} (height : item)
    (addtl_push : option (list item)) (extra_script_sig : bytes)
    : result Input :=
  let addtl_push :=
    match addtl_push with
    | Some (x :: l) => x :: l
    | _ => []
    end in
  let? data := create_push_script (height :: addtl_push) in
  Ok {| prevout_hash := _nullprev;
        prevout_idx := 4294967295;
        script_sig := data ++ extra_script_sig;
        seqno := 0 |}.


(** The dictionary that [to_dict] builds, one field per key. *)
Module Dict.

Record input : Set := {
  prevout_hash : bytes;
  prevout_idx : Z;
  script_sig : bytes;
  seqno : Z
}.

Record output : Set := {
  amount : Z;
  script_pub_key : bytes
}.

Record t : Set := {
  inputs : list input;
  outputs : list output;
  data : bytes;
  locktime : Z;
  version : option Z;
  hash : bytes
}.

End Dict.

(** [Transaction.to_dict]: the entries are evaluated in the order of the
    dictionary display, so [hexlify(self._raw)] comes before
    [self.lehexhash]; [hexlify(None)] is a [TypeError]. *)
Definition to_dict {X : Imported} : M Dict.t :=
  self <- get ;;
  let ins :=
    map (fun inp => {| Dict.prevout_hash := hexlify (prevout_hash inp);
                       Dict.prevout_idx := prevout_idx inp;
                       Dict.script_sig := hexlify (script_sig inp);
                       Dict.seqno := seqno inp |}) (inputs self) in
  let outs :=
    map (fun out => {| Dict.amount := amount out;
                       Dict.script_pub_key :=
                         hexlify (script_pub_key out) |})
        (outputs self) in
  data <- match _raw self with
          | Some r => ret (hexlify r)
          | None => raise TypeError
          end ;;
  let locktime := locktime self in
  let version := version self in
  h <- lehexhash ;;
  ret {| Dict.inputs := ins;
         Dict.outputs := outs;
         Dict.data := data;
         Dict.locktime := locktime;
         Dict.version := version;
         Dict.hash := h |}.

(** Assignments to the two optional attributes. *)
Definition set_n_time (v : option Z) (t : Transaction) : Transaction :=
  {| _raw := _raw t; inputs := inputs t; outputs := outputs t;
     locktime := locktime t; n_time := v; fees := fees t;
     version := version t; _hash := _hash t;
     transaction_message := transaction_message t |}.

Definition set_transaction_message (v : option bytes) (t : Transaction)
    : Transaction :=
  {| _raw := _raw t; inputs := inputs t; outputs := outputs t;
     locktime := locktime t; n_time := n_time t; fees := fees t;
     version := version t; _hash := _hash t;
     transaction_message := v |}.

(** The fields whose values [assemble] packs: the conditions of
    [well_formed] without the length of [prevout_hash], which is written
    as it is. *)
Definition packable_input {E : BitcoinEncoding} (i : Input) : bool :=
  in_range fmt_L (prevout_idx i)
  && encodable (List.length (script_sig i))
  && in_range fmt_L (seqno i).

Definition packable {E : BitcoinEncoding} (t : Transaction) : bool :=
  match version t with Some v => in_range fmt_L v | None => false end
  && in_range_opt fmt_i (n_time t)
  && encodable (List.length (inputs t))
  && forallb packable_input (inputs t)
  && encodable (List.length (outputs t))
  && forallb valid_output (outputs t)
  && in_range fmt_L (locktime t).

(** A stand-in for the script builder, to run [coinbase] on samples:
    every item is an integer below 256 and is pushed as one length byte
    and one value byte. *)
Definition sample_scripting : Scripting := {|
  item := Z;
  create_push_script :=
    fun items => Ok (flat_map (fun z => [x01; byte_of_Z z]) items)
|}.

(** ** [hashlib.sha256]

    The digest of FIPS 180-4 on 32-bit words held in [Z], to run the
    hash accessors on concrete buffers. *)
Module SHA256.

Definition mask : Z := 0xffffffff.

Definition add32 (a b : Z) : Z := Z.land (a + b) mask.

Definition rotr (n x : Z) : Z :=
  Z.land (Z.lor (Z.shiftr x n) (Z.shiftl x (32 - n))) mask.

Definition Ch (x y z : Z) : Z :=
  Z.lxor (Z.land x y) (Z.land (Z.lxor x mask) z).

Definition Maj (x y z : Z) : Z :=
  Z.lxor (Z.lxor (Z.land x y) (Z.land x z)) (Z.land y z).

Definition Sigma0 (x : Z) : Z :=
  Z.lxor (Z.lxor (rotr 2 x) (rotr 13 x)) (rotr 22 x).

Definition Sigma1 (x : Z) : Z :=
  Z.lxor (Z.lxor (rotr 6 x) (rotr 11 x)) (rotr 25 x).

Definition sigma0 (x : Z) : Z :=
  Z.lxor (Z.lxor (rotr 7 x) (rotr 18 x)) (Z.shiftr x 3).

Definition sigma1 (x : Z) : Z :=
  Z.lxor (Z.lxor (rotr 17 x) (rotr 19 x)) (Z.shiftr x 10).

(** The constants are defined as the standard defines them: the first 32
    bits of the fractional parts of the cube roots of the first 64
    primes, and of the square roots of the first eight. *)
Definition is_prime (p : Z) : bool :=
  (1 <? p)
  && forallb (fun d => negb (p mod d =? 0))
       (map Z.of_nat (seq 2 (Z.to_nat p - 2))).

Definition primes : list Z :=
  filter is_prime (map Z.of_nat (seq 2 310)).

(** The integer cube root, one bit at a time from bit [k - 1] down. *)
Fixpoint cube_root_bits (k : nat) (n r : Z) : Z :=
  match k with
  | O => r
  | S k' =>
      let c := r + 2 ^ Z.of_nat k' in
      if c * c * c <=? n then cube_root_bits k' n c
      else cube_root_bits k' n r
  end.

Definition frac_cube_root (p : Z) : Z :=
  Z.land (cube_root_bits 48 (p * 2 ^ 96) 0) mask.

Definition frac_square_root (p : Z) : Z :=
  Z.land (Z.sqrt (p * 2 ^ 64)) mask.

Definition K : list Z := Eval vm_compute in map frac_cube_root primes.

(** The eight working variables, and the hash value between blocks. *)
Definition state : Type := (Z * Z * Z * Z * Z * Z * Z * Z)%type.

Definition H0 : state :=
  Eval vm_compute in
  match map frac_square_root (firstn 8 primes) with
  | [a; b; c; d; e; f; g; h] => (a, b, c, d, e, f, g, h)
  | _ => (0, 0, 0, 0, 0, 0, 0, 0)
  end.

(** Big-endian words and bytes. *)
Definition be_word (b : bytes) : Z :=
  fold_left (fun acc x => acc * 256 + Z_of_byte x) b 0.

Definition be_bytes4 (w : Z) : bytes :=
  [byte_of_Z (Z.shiftr w 24); byte_of_Z (Z.shiftr w 16);
   byte_of_Z (Z.shiftr w 8); byte_of_Z w].

Fixpoint be_bytes (n : nat) (v : Z) : bytes :=
  match n with
  | O => []
  | S k => be_bytes k (v / 256) ++ [byte_of_Z v]
  end.

(** The message, a one bit, zero bits up to 56 modulo 64 bytes, and the
    length in bits on eight bytes. *)
Definition pad (msg : bytes) : bytes :=
  let l := List.length msg in
  let zeros := Z.to_nat ((55 - Z.of_nat l) mod 64) in
  msg ++ [x80] ++ repeat x00 zeros ++ be_bytes 8 (8 * Z.of_nat l).

Fixpoint chunks (size count : nat) (data : bytes) : list bytes :=
  match count with
  | O => []
  | S k => firstn size data :: chunks size k (skipn size data)
  end.

(** The message schedule: [window] holds the last sixteen words. *)
Fixpoint schedule (n : nat) (window : list Z) : list Z :=
  match n with
  | O => []
  | S k =>
      match window with
      | [] => []
      | w :: rest =>
          let next :=
            add32 (add32 (sigma1 (nth 13 rest 0)) (nth 8 rest 0))
                  (add32 (sigma0 (nth 0 rest 0)) w) in
          w :: schedule k (rest ++ [next])
      end
  end.

Definition round (st : state) (kw : Z * Z) : state :=
  let '(a, b, c, d, e, f, g, h) := st in
  let '(k, w) := kw in
  let t1 := add32 (add32 (add32 h (Sigma1 e)) (add32 (Ch e f g) k)) w in
  let t2 := add32 (Sigma0 a) (Maj a b c) in
  (add32 t1 t2, a, b, c, add32 d t1, e, f, g).

Definition compress (st : state) (block : bytes) : state :=
  let w := schedule 64 (map be_word (chunks 4 16 block)) in
  let '(a, b, c, d, e, f, g, h) := fold_left round (combine K w) st in
  let '(a0, b0, c0, d0, e0, f0, g0, h0) := st in
  (add32 a0 a, add32 b0 b, add32 c0 c, add32 d0 d,
   add32 e0 e, add32 f0 f, add32 g0 g, add32 h0 h).

Definition digest (msg : bytes) : bytes :=
  let padded := pad msg in
  let blocks := chunks 64 (List.length padded / 64) padded in
  let '(a, b, c, d, e, f, g, h) := fold_left compress blocks H0 in
  be_bytes4 a ++ be_bytes4 b ++ be_bytes4 c ++ be_bytes4 d
  ++ be_bytes4 e ++ be_bytes4 f ++ be_bytes4 g ++ be_bytes4 h.

End SHA256.

(** The imported functions with the real digest; the serialiser and the
    address decoder are the stand-ins of [sample_imports]. *)
Definition hashlib_imports : Imported := {|
  sha256 := SHA256.digest;
  ser_string := prefixed_string;
  address_bytes := fun _ => Ok (repeat x11 20)
|}.

(** ** Facts about the fixed-width codec *)

Lemma Z_of_byte_range (b : byte) : 0 <= Z_of_byte b < 256.
Proof.
  unfold Z_of_byte. pose proof (Byte.to_N_bounded b). lia.
Qed.

Lemma Z_of_byte_of_Z (z : Z) : Z_of_byte (byte_of_Z z) = z mod 256.
Proof.
  unfold Z_of_byte, byte_of_Z.
  assert (Hm : 0 <= z mod 256 < 256) by (apply Z.mod_pos_bound; lia).
  destruct (Byte.of_N (Z.to_N (z mod 256))) as [b|] eqn:E.
  - apply Byte.to_of_N in E. rewrite E. lia.
  - apply Byte.of_N_None_iff in E. lia.
Qed.

Lemma byte_of_Z_of_byte (b : byte) : byte_of_Z (Z_of_byte b) = b.
Proof.
  unfold byte_of_Z, Z_of_byte.
  pose proof (Byte.to_N_bounded b) as Hb.
  rewrite Z.mod_small by lia.
  rewrite N2Z.id, Byte.of_to_N. reflexivity.
Qed.

Lemma Z_of_byte_inj (a b : byte) : Z_of_byte a = Z_of_byte b -> a = b.
Proof.
  intros H. rewrite <- (byte_of_Z_of_byte a), <- (byte_of_Z_of_byte b).
  now rewrite H.
Qed.

Lemma bytes_eqb_eq (a b : bytes) : bytes_eqb a b = true <-> a = b.
Proof.
  unfold bytes_eqb. destruct (list_eq_dec Byte.byte_eq_dec a b);
    split; congruence.
Qed.

Lemma le_bytes_length (n : nat) (v : Z) : List.length (le_bytes n v) = n.
Proof.
  revert v. induction n as [|n IH]; intros v; simpl; [reflexivity|].
  now rewrite IH.
Qed.

Lemma le_value_le_bytes (n : nat) (v : Z) :
  le_value (le_bytes n v) = v mod 2 ^ (8 * Z.of_nat n).
Proof.
  revert v. induction n as [|n IH]; intros v.
  - simpl. now rewrite Z.mod_1_r.
  - cbn [le_bytes le_value]. rewrite Z_of_byte_of_Z, IH.
    replace (8 * Z.of_nat (S n)) with (8 + 8 * Z.of_nat n) by lia.
    rewrite Z.pow_add_r by lia.
    change (2 ^ 8) with 256.
    rewrite Z.rem_mul_r by lia. reflexivity.
Qed.

Lemma le_value_bound (b : bytes) :
  0 <= le_value b < 2 ^ (8 * Z.of_nat (List.length b)).
Proof.
  induction b as [|x r IH].
  - simpl. lia.
  - cbn [le_value List.length].
    replace (8 * Z.of_nat (S (List.length r)))
      with (8 + 8 * Z.of_nat (List.length r)) by lia.
    rewrite Z.pow_add_r by lia. change (2 ^ 8) with 256.
    pose proof (Z_of_byte_range x). nia.
Qed.

Lemma pack_length (f : fmt) (v : Z) (b : bytes) :
  pack f v = Ok b -> List.length b = width f.
Proof.
  unfold pack. destruct (in_range f v); [|discriminate].
  intros H. injection H as <-. apply le_bytes_length.
Qed.

Lemma pack_in_range (f : fmt) (v : Z) :
  in_range f v = true -> pack f v = Ok (le_bytes (width f) (v mod modulus f)).
Proof. unfold pack. now intros ->. Qed.

Lemma unpack_length (f : fmt) (b : bytes) (v : Z) :
  unpack f b = Ok v -> List.length b = width f.
Proof.
  unfold unpack. destruct (Nat.eqb_spec (List.length b) (width f));
    [auto|discriminate].
Qed.

Lemma unpack_short (f : fmt) (b : bytes) :
  List.length b <> width f -> unpack f b = Raise StructError.
Proof.
  unfold unpack. intros H.
  destruct (Nat.eqb_spec (List.length b) (width f)); [contradiction|reflexivity].
Qed.

Lemma unpack_pack_unsigned (f : fmt) (v : Z) (b : bytes) :
  signed f = false -> pack f v = Ok b -> unpack f b = Ok v.
Proof.
  intros Hs Hp. pose proof (pack_length _ _ _ Hp) as Hl.
  unfold pack in Hp. destruct (in_range f v) eqn:Hr; [|discriminate].
  injection Hp as <-.
  unfold unpack. rewrite Hl, Nat.eqb_refl, Hs. cbn [andb].
  rewrite le_value_le_bytes. fold (modulus f).
  unfold in_range, lo, hi in Hr. rewrite Hs in Hr.
  apply andb_true_iff in Hr as [H1 H2].
  apply Z.leb_le in H1. apply Z.ltb_lt in H2.
  rewrite (Z.mod_small v) by lia.
  now rewrite Z.mod_small by lia.
Qed.

(** ** Slices of concatenations *)

Lemma firstn_app_le {A} (n : nat) (a b : list A) :
  (n <= List.length a)%nat -> firstn n (a ++ b) = firstn n a.
Proof.
  intros H. rewrite firstn_app.
  replace (n - List.length a)%nat with O by lia.
  simpl. apply app_nil_r.
Qed.

Lemma skipn_app_le {A} (n : nat) (a b : list A) :
  (n <= List.length a)%nat -> skipn n (a ++ b) = skipn n a ++ b.
Proof.
  intros H. rewrite skipn_app.
  replace (n - List.length a)%nat with O by lia.
  reflexivity.
Qed.

Lemma firstn_exact {A} (a b : list A) :
  firstn (List.length a) (a ++ b) = a.
Proof.
  rewrite firstn_app_le by lia. apply firstn_all.
Qed.

Lemma skipn_exact {A} (a b : list A) :
  skipn (List.length a) (a ++ b) = b.
Proof.
  rewrite skipn_app_le by lia. now rewrite skipn_all.
Qed.

Lemma firstn_full_length {A} (n : nat) (a : list A) :
  List.length (firstn n a) = n -> (n <= List.length a)%nat.
Proof.
  rewrite length_firstn. lia.
Qed.

(** Reading a field of [width f] bytes back from the front of a buffer. *)
Lemma funpack_pack_front (f : fmt) (v : Z) (p rest : bytes) :
  signed f = false -> pack f v = Ok p ->
  funpack f (firstn (width f) (p ++ rest)) = Ok v /\
  skipn (width f) (p ++ rest) = rest.
Proof.
  intros Hs Hp. pose proof (pack_length _ _ _ Hp) as Hl.
  rewrite <- Hl. rewrite firstn_exact, skipn_exact.
  split; [|reflexivity].
  unfold funpack. now apply unpack_pack_unsigned.
Qed.

(** A successful [funpack] of a slice does not see what follows it. *)
Lemma funpack_front_app (f : fmt) (n : nat) (d extra : bytes) (v : Z) :
  n = width f ->
  funpack f (firstn n d) = Ok v ->
  funpack f (firstn n (d ++ extra)) = Ok v /\ (n <= List.length d)%nat.
Proof.
  intros -> H. pose proof (unpack_length _ _ _ H) as Hl.
  apply firstn_full_length in Hl.
  rewrite firstn_app_le by exact Hl. split; assumption.
Qed.

(** ** The standard variable-length integer obeys the interface *)

Lemma byte_eqb_Z (a b : byte) :
  Byte.eqb a b = true <-> Z_of_byte a = Z_of_byte b.
Proof.
  split.
  - intros H. apply Byte.byte_dec_bl in H. now subst.
  - intros H. apply Byte.byte_dec_lb. now apply Z_of_byte_inj.
Qed.

Lemma byte_eqb_small (n : Z) (m : byte) :
  0 <= n < Z_of_byte m -> Byte.eqb (byte_of_Z n) m = false.
Proof.
  intros H. destruct (Byte.eqb (byte_of_Z n) m) eqn:Eq; [|reflexivity].
  apply byte_eqb_Z in Eq. rewrite Z_of_byte_of_Z in Eq.
  pose proof (Z_of_byte_range m).
  rewrite Z.mod_small in Eq by lia. lia.
Qed.

Lemma slice_cons (a b : nat) (x : byte) (l : bytes) :
  slice (S a) (S b) (x :: l) = slice a b l.
Proof. reflexivity. Qed.

Lemma slice_0 (n : nat) (l : bytes) : slice 0 n l = firstn n l.
Proof. unfold slice. now rewrite Nat.sub_0_r. Qed.

Lemma from_cons (a : nat) (x : byte) (l : bytes) :
  from (S a) (x :: l) = skipn a l.
Proof. reflexivity. Qed.

Lemma compact_decode_cons (b0 : byte) (r : bytes) :
  compact_decode (b0 :: r) =
  if Byte.eqb b0 xff then
    let? v := funpack fmt_Q (firstn 8 r) in Ok (Z.to_N v, skipn 8 r)
  else if Byte.eqb b0 xfe then
    let? v := funpack fmt_L (firstn 4 r) in Ok (Z.to_N v, skipn 4 r)
  else if Byte.eqb b0 xfd then
    let? v := funpack fmt_H (firstn 2 r) in Ok (Z.to_N v, skipn 2 r)
  else Ok (Byte.to_N b0, r).
Proof.
  unfold compact_decode. now rewrite !slice_cons, !slice_0, !from_cons.
Qed.

Lemma compact_decode_encode (n : N) (enc rest : bytes) :
  compact_encode n = Ok enc -> compact_decode (enc ++ rest) = Ok (n, rest).
Proof.
  unfold compact_encode.
  destruct (Z.ltb_spec (Z.of_N n) 0xfd) as [H1|H1].
  - intros Hp. unfold pack in Hp.
    destruct (in_range fmt_B (Z.of_N n)); [|discriminate].
    injection Hp as <-. cbn [width le_bytes app].
    change (modulus fmt_B) with 256.
    rewrite Z.mod_small by lia.
    rewrite compact_decode_cons.
    rewrite !byte_eqb_small by (vm_compute Z_of_byte; lia).
    do 2 f_equal.
    apply N2Z.inj. fold (Z_of_byte (byte_of_Z (Z.of_N n))).
    rewrite Z_of_byte_of_Z. apply Z.mod_small. lia.
  - destruct (Z.leb_spec (Z.of_N n) 0xffff) as [H2|H2];
      [|destruct (Z.leb_spec (Z.of_N n) 0xffffffff) as [H3|H3]];
      (destruct (pack _ (Z.of_N n)) as [p|] eqn:Hp; cbn [bindR];
       [|discriminate]);
      intros Hq; injection Hq as <-;
      match type of Hp with
      | pack ?f _ = _ =>
          destruct (funpack_pack_front f _ _ rest eq_refl Hp) as [Hv Hr]
      end;
      cbn [width] in Hv, Hr;
      cbn [app]; rewrite compact_decode_cons;
      match goal with
      | |- context [Byte.eqb ?a xff] =>
          change (Byte.eqb a xff) with false;
          try change (Byte.eqb a xfe) with false;
          try change (Byte.eqb a xfd) with true;
          try change (Byte.eqb a xfe) with true
      | _ => idtac
      end;
      try change (Byte.eqb xff xff) with true;
      cbv iota; rewrite Hv, Hr; cbn [bindR]; now rewrite N2Z.id.
Qed.

Lemma compact_decode_app (d rest extra : bytes) (n : N) :
  compact_decode d = Ok (n, rest) ->
  compact_decode (d ++ extra) = Ok (n, rest ++ extra).
Proof.
  destruct d as [|b0 r]; [discriminate|].
  cbn [app]. rewrite !compact_decode_cons.
  destruct (Byte.eqb b0 xff);
    [|destruct (Byte.eqb b0 xfe); [|destruct (Byte.eqb b0 xfd)]].
  4: { intros H. injection H as <- <-. reflexivity. }
  all: match goal with
       | |- context [funpack ?f (firstn ?k ?l)] =>
           destruct (funpack f (firstn k l)) as [v|] eqn:Hv;
             cbn [bindR]; [|discriminate];
           destruct (funpack_front_app f k l extra v eq_refl Hv) as [Hv' Hl];
           rewrite Hv'; cbn [bindR];
           intros H; injection H as <- <-;
           now rewrite skipn_app_le by exact Hl
       end.
Qed.

#[export] Instance compact_size : BitcoinEncoding := {|
  varlen_encode := compact_encode;
  varlen_decode := compact_decode;
  varlen_decode_encode := compact_decode_encode;
  varlen_decode_app := compact_decode_app
|}.

(** ** Unfolding the method monad *)

Lemma bind_lift {A B} (r : result A) (k : A -> M B) (self : Transaction) :
  (x <- lift r ;; k x) self =
  match r with
  | Ok a => k a self
  | Raise e => (Raise e, self)
  end.
Proof. unfold bind, lift. now destruct r. Qed.

Lemma bind_modify {B} (f : Transaction -> Transaction) (k : M B)
    (self : Transaction) :
  (modify f ;; k) self = k (f self).
Proof. reflexivity. Qed.

Lemma bind_get {B} (k : Transaction -> M B) (self : Transaction) :
  (x <- get ;; k x) self = k self self.
Proof. reflexivity. Qed.

Lemma bind_ret {A B} (a : A) (k : A -> M B) (self : Transaction) :
  (x <- ret a ;; k x) self = k a self.
Proof. reflexivity. Qed.

Lemma bind_raise {A B} (e : exn) (k : A -> M B) (self : Transaction) :
  (x <- raise e ;; k x) self = (Raise e, self).
Proof. reflexivity. Qed.

(** ** Coinbase detection *)

(** C5. With at least one input, [is_coinbase] answers whether the first
    input's [prevout_hash] is the 32 zero bytes; its [prevout_idx], its
    other fields and the remaining inputs play no part, and the object is
    left as it was. *)
Theorem is_coinbase_first_input (t : Transaction) (first : Input)
    (others : list Input) :
  inputs t = first :: others ->
  is_coinbase t = (Ok (bytes_eqb (prevout_hash first) _nullprev), t)
  /\ (fst (is_coinbase t) = Ok true <->
      prevout_hash first = repeat x00 32)
  /\ (forall (idx' seq' : Z) (sig' : bytes) (others' : list Input),
        fst (is_coinbase
               (set_inputs ({| prevout_hash := prevout_hash first;
                               prevout_idx := idx';
                               script_sig := sig';
                               seqno := seq' |} :: others') t))
        = fst (is_coinbase t)).
Proof.
  intros Hin.
  assert (Hc : is_coinbase t
               = (Ok (bytes_eqb (prevout_hash first) _nullprev), t)).
  { unfold is_coinbase. rewrite bind_get, Hin. reflexivity. }
  split; [exact Hc|]. split.
  - rewrite Hc. cbn [fst]. split.
    + intros H. injection H as H. now apply bytes_eqb_eq in H.
    + intros H. f_equal. now apply bytes_eqb_eq.
  - intros idx' seq' sig' others'. rewrite Hc. reflexivity.
Qed.

Lemma is_coinbase_first_input_witness :
  let t := {| _raw := None;
              inputs := [ {| prevout_hash := repeat x00 32;
                             prevout_idx := 7;
                             script_sig := [x51];
                             seqno := 0 |};
                          {| prevout_hash := repeat xab 32;
                             prevout_idx := 1;
                             script_sig := [];
                             seqno := 0 |} ];
              outputs := []; locktime := 0; n_time := None; fees := None;
              version := None; _hash := None;
              transaction_message := None |} in
  fst (is_coinbase t) = Ok true.
Proof.
  intros t.
  destruct (is_coinbase_first_input t _ _ eq_refl) as [_ [H _]].
  apply H. reflexivity.
Defined.

(** C10. [is_coinbase] indexes [self.inputs[0]] without a guard: on an
    empty input sequence it raises [IndexError] and returns nothing; on
    any non-empty one it returns a truth value. *)
Theorem is_coinbase_needs_an_input (t : Transaction) :
  inputs t = [] ->
  is_coinbase t = (Raise IndexError, t)
  /\ (forall (i : Input) (l : list Input),
        exists b : bool, fst (is_coinbase (set_inputs (i :: l) t)) = Ok b).
Proof.
  intros Hin. split.
  - unfold is_coinbase. rewrite bind_get, Hin. reflexivity.
  - intros i l. eexists. reflexivity.
Qed.

Lemma is_coinbase_needs_an_input_witness :
  fst (is_coinbase {| _raw := None; inputs := []; outputs := [];
                      locktime := 0; n_time := None; fees := None;
                      version := None; _hash := None;
                      transaction_message := None |})
  = Raise IndexError.
Proof.
  refine (f_equal fst (proj1 (is_coinbase_needs_an_input _ _))).
  reflexivity.
Defined.

(** ** The pay-to-address output *)

(** C8. When [address_bytes] decodes the address to the 20 bytes [h],
    [Output.to_address] returns the given amount with the script
    [76 a9 14 h 88 ac], 25 bytes long. *)
Theorem to_address_script {X : Imported} (amount : Z) (address : string)
    (h : bytes) :
  address_bytes address = Ok h ->
  List.length h = 20%nat ->
  to_address amount address
  = Ok {| amount := amount;
          script_pub_key := x76 :: xa9 :: x14 :: h ++ [x88; xac] |}
  /\ (forall o : Output, to_address amount address = Ok o ->
        List.length (script_pub_key o) = 25%nat
        /\ firstn 20 (skipn 3 (script_pub_key o)) = h).
Proof.
  intros Ha Hl. unfold to_address. rewrite Ha. cbn [bindR app].
  split; [reflexivity|].
  intros o Ho. injection Ho as <-. cbn [script_pub_key]. split.
  - cbn [List.length]. rewrite length_app, Hl. reflexivity.
  - cbn [skipn]. rewrite <- Hl. apply firstn_exact.
Qed.

Lemma to_address_script_witness :
  to_address (X := {| sha256 := fun b => b;
                      ser_string := prefixed_string;
                      address_bytes := fun _ => Ok (repeat x11 20) |})
             5000000000 "address"
  = Ok {| amount := 5000000000;
          script_pub_key := [x76; xa9; x14] ++ repeat x11 20 ++ [x88; xac] |}.
Proof.
  refine (proj1 (to_address_script (X := {| sha256 := fun b => b;
                      ser_string := prefixed_string;
                      address_bytes := fun _ => Ok (repeat x11 20) |})
                   _ _ (repeat x11 20) _ _)); reflexivity.
Defined.

(** ** What the loops of [disassemble] leave untouched *)

Lemma set_inputs_same (self : Transaction) :
  set_inputs (inputs self) self = self.
Proof. now destruct self. Qed.

Lemma set_outputs_same (self : Transaction) :
  set_outputs (outputs self) self = self.
Proof. now destruct self. Qed.

Section Frames.

Context {E : BitcoinEncoding}.

Lemma disassemble_inputs_frame (n : nat) (data : bytes)
    (self : Transaction) :
  exists l, snd (disassemble_inputs n data self) = set_inputs l self.
Proof.
  revert data self. induction n as [|n IH]; intros data self.
  - exists (inputs self). cbn. now rewrite set_inputs_same.
  - cbn [disassemble_inputs]. rewrite bind_lift.
    destruct (funpack fmt_L (slice 32 36 data)) as [idx|];
      [|exists (inputs self); cbn; now rewrite set_inputs_same].
    rewrite bind_lift.
    destruct (varlen_decode (from 36 data)) as [[ss d]|];
      [|exists (inputs self); cbn; now rewrite set_inputs_same].
    rewrite bind_lift.
    destruct (funpack fmt_L _) as [sq|];
      [|exists (inputs self); cbn; now rewrite set_inputs_same].
    rewrite bind_modify.
    match goal with
    | |- context [disassemble_inputs n ?d ?s] =>
        destruct (IH d s) as [l Hl]; rewrite Hl
    end.
    exists l. reflexivity.
Qed.

Lemma disassemble_outputs_frame (n : nat) (data : bytes)
    (self : Transaction) :
  exists l, snd (disassemble_outputs n data self) = set_outputs l self.
Proof.
  revert data self. induction n as [|n IH]; intros data self.
  - exists (outputs self). cbn. now rewrite set_outputs_same.
  - cbn [disassemble_outputs]. rewrite bind_lift.
    destruct (funpack fmt_Q (upto 8 data)) as [amt|];
      [|exists (outputs self); cbn; now rewrite set_outputs_same].
    rewrite bind_lift.
    destruct (varlen_decode (from 8 data)) as [[ps d]|];
      [|exists (outputs self); cbn; now rewrite set_outputs_same].
    rewrite bind_modify.
    match goal with
    | |- context [disassemble_outputs n ?d ?s] =>
        destruct (IH d s) as [l Hl]; rewrite Hl
    end.
    exists l. reflexivity.
Qed.

(** The parse of the fields never touches [_raw]. *)
Lemma disassemble_fields_raw (data : bytes) (self : Transaction) :
  _raw (snd (disassemble_fields data self)) = _raw self.
Proof.
  unfold disassemble_fields. rewrite bind_lift.
  destruct (funpack fmt_L (upto 4 data)) as [v|]; [|reflexivity].
  rewrite bind_modify, bind_lift.
  destruct (varlen_decode (from 4 data)) as [[ic d]|]; [|reflexivity].
  rewrite bind_modify. unfold bind at 1.
  match goal with
  | |- context [disassemble_inputs ?n ?d ?s] =>
      destruct (disassemble_inputs_frame n d s) as [l Hl];
      destruct (disassemble_inputs n d s) as [[d1|e] s1]
  end; cbn [snd] in Hl; subst s1; [|reflexivity].
  rewrite bind_lift.
  destruct (varlen_decode d1) as [[oc d2]|]; [|reflexivity].
  rewrite bind_modify.
  match goal with
  | |- context [disassemble_outputs ?n ?d ?s] =>
      destruct (disassemble_outputs_frame n d s) as [l' Hl'];
      rewrite Hl'
  end.
  reflexivity.
Qed.

Lemma disassemble_locktime_raw (data : bytes) (self : Transaction) :
  _raw (snd (disassemble_locktime false data self)) = _raw self.
Proof.
  unfold disassemble_locktime. rewrite bind_lift.
  destruct (funpack fmt_L (upto 4 data)) as [v|]; [|reflexivity].
  rewrite !bind_modify.
  destruct (List.length data =? 4)%nat; reflexivity.
Qed.

End Frames.

(** ** An empty [raw] argument *)

(** C9. A [raw] argument that is false in a condition (the empty byte
    string, but also an empty value of another type) is handled by
    [__init__] exactly like [None]: nothing is stored and the type check
    is not reached.  [disassemble] given [b''] behaves like
    [disassemble] given nothing: it keeps the stored buffer and parses
    that one. *)
Theorem empty_raw_is_no_raw {E : BitcoinEncoding} :
  (forall (v : pyarg) (fees : option Z) (d pos msgs : bool),
     __init__ (if truthy v then PyNone else v) fees d pos msgs
     = __init__ PyNone fees d pos msgs)
  /\ (forall (fees : option Z) (pos msgs : bool),
        exists t, __init__ (PyNewbytes []) fees false pos msgs = Ok t
                  /\ _raw t = None)
  /\ (forall (fees : option Z) (pos msgs : bool),
        __init__ (PyStr "") fees false pos msgs
        = __init__ PyNone fees false pos msgs
        /\ __init__ (PyStr "raw") fees false pos msgs
           = Raise AttributeError)
  /\ (forall (dump : bool) (fees : option Z) (self : Transaction),
        disassemble (Some []) dump fees self
        = disassemble None dump fees self)
  /\ (forall (fees : option Z) (self : Transaction),
        _raw (snd (disassemble (Some []) false fees self)) = _raw self)
  /\ (forall (dump : bool) (self : Transaction),
        disassemble (Some []) dump None self
        = match _raw self with
          | Some stored =>
              (data <- disassemble_fields stored ;;
               disassemble_locktime dump data) self
          | None => (Raise TypeError, self)
          end).
Proof.
  assert (Hr : forall s : Transaction,
             _raw (snd (disassemble None false None s)) = _raw s).
  { intros s. unfold disassemble. cbn [truthy_int truthy_bytes when].
    rewrite !bind_ret, bind_get.
    destruct (_raw s) as [stored|] eqn:Hs; [|cbn; now rewrite Hs].
    unfold bind.
    pose proof (disassemble_fields_raw stored s) as Hf.
    destruct (disassemble_fields stored s) as [[d|e] s1];
      cbn [snd] in Hf; [|cbn; congruence].
    rewrite disassemble_locktime_raw. congruence. }
  split; [|split; [|split; [|split; [|split]]]].
  - intros v fees d pos msgs.
    destruct v as [|b|b|s|z]; cbn [truthy]; try reflexivity.
    + destruct b; reflexivity.
    + destruct b; reflexivity.
    + destruct s; reflexivity.
    + destruct (Z.eqb_spec z 0) as [->|Hz]; reflexivity.
  - intros fees pos msgs. eexists. split; reflexivity.
  - intros fees pos msgs. split; reflexivity.
  - intros dump fees self. reflexivity.
  - intros fees self. unfold disassemble. cbn [truthy_bytes when].
    destruct (truthy_int fees) eqn:Ht; cbn [when].
    + rewrite bind_modify, bind_ret.
      specialize (Hr (set_fees fees self)).
      unfold disassemble in Hr. cbn [truthy_int truthy_bytes when] in Hr.
      rewrite !bind_ret in Hr. exact Hr.
    + rewrite !bind_ret.
      specialize (Hr self). unfold disassemble in Hr.
      cbn [truthy_int truthy_bytes when] in Hr.
      rewrite !bind_ret in Hr. exact Hr.
  - intros dump self. unfold disassemble.
    cbn [truthy_int truthy_bytes when].
    rewrite !bind_ret, bind_get.
    destruct (_raw self); reflexivity.
Qed.

(** ** The hash accessors *)

Section Hashes.

Context {X : Imported}.

Lemma hash_unfold (self : Transaction) :
  hash self =
  match _hash self with
  | Some h => (Ok h, self)
  | None =>
      match _raw self with
      | Some data =>
          (Ok (rev (sha256 (sha256 data))),
           set_hash (Some (rev (sha256 (sha256 data)))) self)
      | None => (Raise TypeError, self)
      end
  end.
Proof.
  unfold hash. rewrite bind_get.
  destruct (_hash self); [reflexivity|].
  destruct (_raw self); reflexivity.
Qed.

(** On a coherent object with a buffer, [hash] returns the reversed
    double digest of the buffer and leaves it in the cache. *)
Lemma hash_value (self : Transaction) (data : bytes) :
  _raw self = Some data ->
  hash_coherent self = true ->
  fst (hash self) = Ok (rev (sha256 (sha256 data)))
  /\ _hash (snd (hash self)) = Some (rev (sha256 (sha256 data)))
  /\ _raw (snd (hash self)) = Some data.
Proof.
  intros Hraw Hc. rewrite hash_unfold.
  unfold hash_coherent in Hc. rewrite Hraw in *.
  destruct (_hash self) as [h|] eqn:Hh.
  - apply bytes_eqb_eq in Hc. subst h. cbn. auto.
  - cbn. auto.
Qed.

Lemma hash_coherent_hash (self : Transaction) :
  hash_coherent self = true -> hash_coherent (snd (hash self)) = true.
Proof.
  intros Hc. rewrite hash_unfold.
  destruct (_hash self) as [h|] eqn:Hh; [exact Hc|].
  destruct (_raw self) as [data|] eqn:Hr; [|exact Hc].
  unfold hash_coherent. cbn. rewrite Hr. now apply bytes_eqb_eq.
Qed.

End Hashes.

(** C7, as amended.  On an object with a buffer, [hash] returns a value
    [h], [behash] returns [h] reversed, and [lehexhash] and [behexhash]
    return the hexadecimal forms of [h] and of [h] reversed.  When the
    cache is empty or holds the hash of the stored buffer, [h] is the
    reversed double digest of the whole buffer, so that [behash] is the
    double digest itself, and the cache is coherent afterwards. *)
Theorem hash_accessors {X : Imported} (self : Transaction) (data : bytes) :
  _raw self = Some data ->
  (exists h,
     fst (hash self) = Ok h
     /\ fst (behash self) = Ok (rev h)
     /\ fst (lehexhash self) = Ok (hexlify h)
     /\ fst (behexhash self) = Ok (hexlify (rev h)))
  /\ (hash_coherent self = true ->
      let h := rev (sha256 (sha256 data)) in
      fst (hash self) = Ok h
      /\ fst (behash self) = Ok (rev h)
      /\ rev h = sha256 (sha256 data)
      /\ fst (lehexhash self) = Ok (hexlify h)
      /\ fst (behexhash self) = Ok (hexlify (rev h))
      /\ hash_coherent (snd (hash self)) = true
      /\ _raw (snd (hash self)) = Some data).
Proof.
  intros Hraw.
  assert (Hb : forall (h : bytes) (B : Type) (f : bytes -> B),
             fst (hash self) = Ok h ->
             fst ((x <- hash ;; ret (f x)) self) = Ok (f h)).
  { intros h B f Hv. unfold bind. destruct (hash self) as [[h0|e] s'];
      cbn [fst] in Hv; [|discriminate].
    injection Hv as ->. reflexivity. }
  split.
  - assert (Hex : exists h, fst (hash self) = Ok h).
    { rewrite hash_unfold, Hraw.
      destruct (_hash self) as [h|]; eexists; reflexivity. }
    destruct Hex as [h Hv]. exists h.
    split; [exact Hv|]. split; [apply (Hb h _ (@rev byte) Hv)|].
    split; [apply (Hb h _ hexlify Hv)|].
    apply (Hb h _ (fun x => hexlify (rev x)) Hv).
  - intros Hc h.
    destruct (hash_value self data Hraw Hc) as [Hv [_ Hr]].
    fold h in Hv.
    split; [exact Hv|]. split; [apply (Hb h _ (@rev byte) Hv)|].
    split; [apply rev_involutive|].
    split; [apply (Hb h _ hexlify Hv)|].
    split; [apply (Hb h _ (fun x => hexlify (rev x)) Hv)|].
    split; [now apply hash_coherent_hash|exact Hr].
Qed.

Lemma hash_accessors_witness :
  let self := {| _raw := Some [x01; x02; x03];
                 inputs := []; outputs := []; locktime := 0;
                 n_time := None; fees := None; version := None;
                 _hash := None; transaction_message := None |} in
  fst (behash (X := sample_imports) self)
  = Ok (@sha256 sample_imports (@sha256 sample_imports [x01; x02; x03])).
Proof.
  intros self.
  destruct (proj2 (hash_accessors (X := sample_imports) self
                     [x01; x02; x03] eq_refl) eq_refl)
    as [_ [Hb [Hr _]]].
  exact (eq_trans Hb (f_equal Ok Hr)).
Defined.

(** The digest model agrees with the published test vectors for the
    empty message and for ["abc"]. *)
Example sha256_constants :
  List.length SHA256.K = 64%nat
  /\ firstn 4 SHA256.K = [0x428a2f98; 0x71374491; 0xb5c0fbcf; 0xe9b5dba5]
  /\ nth 63 SHA256.K 0 = 0xc67178f2
  /\ SHA256.H0 = (0x6a09e667, 0xbb67ae85, 0x3c6ef372, 0xa54ff53a,
                  0x510e527f, 0x9b05688c, 0x1f83d9ab, 0x5be0cd19).
Proof. repeat split. Qed.

Example sha256_test_vectors :
  hexlify (SHA256.digest [])
  = hexlify [xe3; xb0; xc4; x42; x98; xfc; x1c; x14;
             x9a; xfb; xf4; xc8; x99; x6f; xb9; x24;
             x27; xae; x41; xe4; x64; x9b; x93; x4c;
             xa4; x95; x99; x1b; x78; x52; xb8; x55]
  /\ SHA256.digest [x61; x62; x63]
     = [xba; x78; x16; xbf; x8f; x01; xcf; xea;
        x41; x41; x40; xde; x5d; xae; x22; x23;
        xb0; x03; x61; xa3; x96; x17; x7a; x9c;
        xb4; x10; xff; x61; xf2; x00; x15; xad].
Proof. split; vm_compute; reflexivity. Qed.

(** The original wording of C7 fails on an object that a failed parse
    has left behind.  [Transaction(b'\x07')] caches its hash on the
    first read; [disassemble(b'\x01\x02')] stores the new buffer and
    then raises [struct.error] while reading the version, before the
    cache is reset.  A buffer is present, and [hash] still returns the
    hash of the old one. *)
Lemma hash_stale_after_failed_parse :
  let t0 := {| _raw := Some [x07]; inputs := []; outputs := [];
               locktime := 0; n_time := None; fees := None;
               version := None; _hash := None;
               transaction_message := None |} in
  let h := rev (SHA256.digest (SHA256.digest [x07])) in
  let t1 := set_hash (Some h) t0 in
  let t2 := set_raw (Some [x01; x02]) t1 in
  __init__ (E := compact_size) (PyNewbytes [x07]) None false false false
  = Ok t0
  /\ hash (X := hashlib_imports) t0 = (Ok h, t1)
  /\ disassemble (E := compact_size) (Some [x01; x02]) false None t1
     = (Raise StructError, t2)
  /\ _raw t2 = Some [x01; x02]
  /\ fst (hash (X := hashlib_imports) t2) = Ok h
  /\ h <> rev (SHA256.digest (SHA256.digest [x01; x02])).
Proof.
  cbv zeta.
  split; [reflexivity|]. split; [vm_compute; reflexivity|].
  split; [vm_compute; reflexivity|]. split; [reflexivity|].
  split; [vm_compute; reflexivity|].
  vm_compute. discriminate.
Qed.

(** C2. A new object has neither buffer nor structured content beyond
    the defaults; asking it for [hash] raises [TypeError] and changes
    nothing, because [hash] reads [_raw] directly.  The accessor [raw]
    on the same object does assemble, and [hash] succeeds afterwards. *)
Theorem hash_without_raw {X : Imported} :
  exists t : Transaction,
    __init__ (E := compact_size) PyNone None false false false = Ok t
    /\ _raw t = None
    /\ hash t = (Raise TypeError, t)
    /\ exists data : bytes,
         fst (raw (E := compact_size) t) = Ok (Some data)
         /\ fst (hash (snd (raw (E := compact_size) t)))
            = Ok (rev (sha256 (sha256 data))).
Proof.
  eexists. split; [reflexivity|]. split; [reflexivity|].
  split; [reflexivity|].
  eexists. split; reflexivity.
Qed.

(** ** Serialisation *)

Lemma is_ok_true {A} (r : result A) :
  is_ok r = true -> exists a, r = Ok a.
Proof. destruct r as [a|e]; [now exists a|discriminate]. Qed.

Section Assembling.

Context {E : BitcoinEncoding} {X : Imported}.

Lemma assemble_unfold (split : bool) (self : Transaction) :
  assemble split self =
  match assemble_data (default_version self) with
  | Ok (data, split_point) =>
      (Ok (if split then Halves (slice_to split_point data)
                                (slice_from split_point data)
           else Whole data),
       set_hash None (set_raw (Some data) (default_version self)))
  | Raise e => (Raise e, default_version self)
  end.
Proof.
  unfold assemble. rewrite bind_modify, bind_get, bind_lift.
  destruct (assemble_data (default_version self)) as [[data sp]|e];
    [|reflexivity].
  rewrite !bind_modify. now destruct split.
Qed.

Lemma default_version_value (self : Transaction) :
  version (default_version self)
  = Some match version self with
         | Some v => v
         | None => match transaction_message self with
                   | Some _ => 2
                   | None => 1
                   end
         end.
Proof.
  unfold default_version.
  destruct (version self) eqn:Hv; [exact Hv|].
  now destruct (transaction_message self).
Qed.

(** The output loop only appends. *)
Lemma assemble_outputs_acc (outs : list Output) (data : bytes) :
  assemble_outputs outs data
  = let? w := assemble_outputs outs [] in Ok (data ++ w).
Proof.
  revert data. induction outs as [|o outs IH]; intros data.
  - cbn. now rewrite app_nil_r.
  - cbn [assemble_outputs].
    destruct (pack fmt_Q (amount o)) as [amt|]; [|reflexivity].
    cbn [bindR].
    destruct (varlen_encode _) as [len|]; [|reflexivity].
    cbn [bindR]. rewrite IH.
    rewrite (IH ((([] ++ amt) ++ len) ++ script_pub_key o)).
    destruct (assemble_outputs outs []) as [w|]; [|reflexivity].
    cbn [bindR app]. now rewrite <- !app_assoc.
Qed.

Lemma assemble_rest_acc (self : Transaction) (data : bytes) :
  assemble_rest self data
  = let? tl := assemble_rest self [] in Ok (data ++ tl).
Proof.
  unfold assemble_rest.
  destruct (varlen_encode _) as [cnt|]; [|reflexivity].
  cbn [bindR]. rewrite assemble_outputs_acc.
  rewrite (assemble_outputs_acc _ ([] ++ cnt)).
  destruct (assemble_outputs (outputs self) []) as [w|]; [|reflexivity].
  cbn [bindR].
  destruct (pack fmt_L (locktime self)) as [lt|]; [|reflexivity].
  cbn [bindR app].
  destruct (transaction_message self); cbn [bindR];
    now rewrite <- !app_assoc.
Qed.

(** The input loop only appends as well. *)
Lemma assemble_inputs_prefix (ins : list Input) (data d : bytes)
    (sp sp' : option nat) :
  assemble_inputs ins data sp = Ok (d, sp') -> exists w, d = data ++ w.
Proof.
  revert data sp. induction ins as [|i ins IH]; intros data sp.
  - cbn. intros H. injection H as <- _. exists []. now rewrite app_nil_r.
  - cbn [assemble_inputs].
    destruct (pack fmt_L (prevout_idx i)) as [idx|]; [|discriminate].
    cbn [bindR].
    destruct (varlen_encode _) as [len|]; [|discriminate].
    cbn [bindR].
    destruct (pack fmt_L (seqno i)) as [sq|]; [|discriminate].
    cbn [bindR]. intros H. apply IH in H as [w ->].
    eexists. rewrite <- !app_assoc. reflexivity.
Qed.

Lemma assemble_header_version (self : Transaction) (d : bytes) :
  assemble_header self = Ok d ->
  exists v ver tl,
    version self = Some v /\ pack fmt_L v = Ok ver /\ d = ver ++ tl.
Proof.
  unfold assemble_header.
  destruct (version self) as [v|]; [|discriminate].
  destruct (pack fmt_L v) as [ver|] eqn:Hp; [|discriminate]. cbn [bindR].
  destruct (n_time self) as [t|].
  - destruct (pack fmt_i t) as [nt|]; [|discriminate]. cbn [bindR].
    destruct (varlen_encode _) as [cnt|]; [|discriminate]. cbn [bindR].
    intros H. injection H as <-.
    exists v, ver, (nt ++ cnt).
    split; [reflexivity|]. split; [exact Hp|]. apply eq_sym, app_assoc.
  - cbn [bindR].
    destruct (varlen_encode _) as [cnt|]; [|discriminate]. cbn [bindR].
    intros H. injection H as <-. now exists v, ver, cnt.
Qed.

Lemma assemble_data_version (self : Transaction) (data : bytes)
    (sp : option nat) :
  assemble_data self = Ok (data, sp) ->
  exists v ver tl,
    version self = Some v /\ pack fmt_L v = Ok ver /\ data = ver ++ tl.
Proof.
  unfold assemble_data.
  destruct (assemble_header self) as [hd|] eqn:Hh; [|discriminate].
  cbn [bindR].
  destruct (assemble_inputs _ hd None) as [[d1 sp1]|] eqn:Hi;
    [|discriminate].
  cbn [bindR]. rewrite assemble_rest_acc.
  destruct (assemble_rest self []) as [tl|]; [|discriminate].
  cbn [bindR]. intros H. injection H as <- _.
  apply assemble_header_version in Hh as (v & ver & t1 & Hv & Hp & ->).
  apply assemble_inputs_prefix in Hi as [w ->].
  exists v, ver, (t1 ++ w ++ tl). now rewrite <- !app_assoc.
Qed.

(** Well-formed fields can always be written. *)
Lemma assemble_inputs_ok (ins : list Input) (data : bytes)
    (sp : option nat) :
  forallb valid_input ins = true ->
  exists d sp', assemble_inputs ins data sp = Ok (d, sp').
Proof.
  revert data sp. induction ins as [|i ins IH]; intros data sp Hv.
  - now exists data, sp.
  - cbn [forallb] in Hv. apply andb_true_iff in Hv as [Hi Hv].
    unfold valid_input in Hi.
    repeat (apply andb_true_iff in Hi as [Hi ?]).
    cbn [assemble_inputs].
    rewrite (pack_in_range fmt_L (prevout_idx i)) by assumption.
    cbn [bindR].
    match goal with
    | H : encodable _ = true |- _ => apply is_ok_true in H as [len ->]
    end.
    cbn [bindR].
    rewrite (pack_in_range fmt_L (seqno i)) by assumption.
    cbn [bindR]. now apply IH.
Qed.

Lemma assemble_outputs_ok (outs : list Output) (data : bytes) :
  forallb valid_output outs = true ->
  exists d, assemble_outputs outs data = Ok d.
Proof.
  revert data. induction outs as [|o outs IH]; intros data Hv.
  - now exists data.
  - cbn [forallb] in Hv. apply andb_true_iff in Hv as [Ho Hv].
    unfold valid_output in Ho. apply andb_true_iff in Ho as [Ha Hl].
    cbn [assemble_outputs].
    rewrite (pack_in_range fmt_Q (amount o)) by assumption.
    cbn [bindR]. apply is_ok_true in Hl as [len ->]. cbn [bindR].
    now apply IH.
Qed.

Lemma well_formed_default_version (self : Transaction) :
  well_formed self = true -> well_formed (default_version self) = true.
Proof.
  unfold default_version.
  destruct (version self) eqn:Hv; [auto|].
  unfold well_formed. rewrite Hv.
  destruct (transaction_message self); cbn; auto.
Qed.

Lemma assemble_data_ok (self : Transaction) :
  well_formed self = true ->
  version self <> None ->
  exists data sp, assemble_data self = Ok (data, sp).
Proof.
  unfold well_formed. intros Hw Hv.
  repeat (apply andb_true_iff in Hw as [Hw ?]).
  unfold assemble_data, assemble_header.
  destruct (version self) as [v|]; [|contradiction].
  cbn [in_range_opt] in *.
  rewrite (pack_in_range fmt_L v) by assumption. cbn [bindR].
  assert (Hh : exists hd,
             (let? data :=
                match n_time self with
                | Some t => let? nt := pack fmt_i t in
                            Ok (le_bytes (width fmt_L) (v mod modulus fmt_L)
                                ++ nt)
                | None => Ok (le_bytes (width fmt_L) (v mod modulus fmt_L))
                end in
              let? cnt :=
                varlen_encode (N.of_nat (List.length (inputs self))) in
              Ok (data ++ cnt)) = Ok hd).
  { destruct (n_time self) as [t|]; cbn [in_range_opt] in *.
    - rewrite (pack_in_range fmt_i t) by assumption. cbn [bindR].
      match goal with
      | H : encodable (List.length (inputs self)) = true |- _ =>
          apply is_ok_true in H as [cnt ->]
      end.
      cbn [bindR]. eauto.
    - cbn [bindR].
      match goal with
      | H : encodable (List.length (inputs self)) = true |- _ =>
          apply is_ok_true in H as [cnt ->]
      end.
      cbn [bindR]. eauto. }
  destruct Hh as [hd ->]. cbn [bindR].
  destruct (assemble_inputs_ok (inputs self) hd None Hw) as (d1 & sp & ->).
  cbn [bindR]. unfold assemble_rest.
  match goal with
  | H : encodable (List.length (outputs self)) = true |- _ =>
      apply is_ok_true in H as [cnt ->]
  end.
  cbn [bindR].
  match goal with
  | H : forallb valid_output _ = true |- _ =>
      destruct (assemble_outputs_ok (outputs self) (d1 ++ cnt) H) as [d2 ->]
  end.
  cbn [bindR].
  rewrite (pack_in_range fmt_L (locktime self)) by assumption.
  cbn [bindR]. destruct (transaction_message self); cbn [bindR]; eauto.
Qed.

Lemma assemble_ok (split : bool) (self : Transaction) :
  well_formed self = true ->
  exists data sp,
    assemble_data (default_version self) = Ok (data, sp)
    /\ assemble split self
       = (Ok (if split then Halves (slice_to sp data) (slice_from sp data)
              else Whole data),
          set_hash None (set_raw (Some data) (default_version self))).
Proof.
  intros Hw.
  destruct (assemble_data_ok (default_version self)) as (data & sp & Hd).
  - now apply well_formed_default_version.
  - rewrite default_version_value. discriminate.
  - exists data, sp. split; [exact Hd|].
    rewrite assemble_unfold, Hd. reflexivity.
Qed.

End Assembling.

(** C6. [assemble] starts by settling the version: an unset one becomes
    2 when [transaction_message] is not [None] (the empty string
    included) and 1 otherwise, a set one is kept; this holds however the
    call ends.  When the call returns, the buffer it stored begins with
    the four little-endian bytes of that version, and it does return on
    well-formed fields.  A constructor call that does not parse leaves
    the version unset. *)
Theorem assemble_version_default {E : BitcoinEncoding} {X : Imported}
    (self : Transaction) (split : bool) :
  let v := match version self with
           | Some v => v
           | None => match transaction_message self with
                     | Some _ => 2
                     | None => 1
                     end
           end in
  version (snd (assemble split self)) = Some v
  /\ (forall (res : assembled) (self' : Transaction),
        assemble split self = (Ok res, self') ->
        exists ver tl,
          pack fmt_L v = Ok ver
          /\ _raw self' = Some (ver ++ tl)
          /\ (forall data, res = Whole data -> data = ver ++ tl))
  /\ (well_formed self = true -> is_ok (fst (assemble split self)) = true)
  /\ (forall (raw : pyarg) (fees : option Z) (pos msgs : bool)
             (t0 : Transaction),
        __init__ raw fees false pos msgs = Ok t0 ->
        version t0 = None
        /\ transaction_message t0 = if msgs then Some [] else None).
Proof.
  intros v. split; [|split; [|split]].
  - rewrite assemble_unfold.
    destruct (assemble_data (default_version self)) as [[data sp]|e];
      cbn [snd]; apply default_version_value.
  - intros res self'. rewrite assemble_unfold.
    destruct (assemble_data (default_version self)) as [[data sp]|e] eqn:Hd;
      [|discriminate].
    intros H. injection H as <- <-.
    apply assemble_data_version in Hd as (v' & ver & tl & Hv & Hp & ->).
    rewrite default_version_value in Hv. injection Hv as <-.
    exists ver, tl. split; [exact Hp|]. split; [reflexivity|].
    intros data Hw. destruct split; [discriminate|]. now injection Hw as <-.
  - intros Hw. destruct (assemble_ok split self Hw) as (data & sp & _ & ->).
    reflexivity.
  - intros raw fees pos msgs t0. unfold __init__.
    destruct (if truthy raw then _ else _) as [r|]; [|discriminate].
    cbn [bindR]. intros H. injection H as <-. split; reflexivity.
Qed.

Lemma assemble_version_default_witness :
  let self := {| _raw := None; inputs := []; outputs := []; locktime := 0;
                 n_time := None; fees := None; version := None;
                 _hash := None; transaction_message := Some [] |} in
  version (snd (assemble (E := compact_size) (X := sample_imports)
                         false self)) = Some 2
  /\ is_ok (fst (assemble (E := compact_size) (X := sample_imports)
                          false self)) = true.
Proof.
  intros self.
  destruct (assemble_version_default (E := compact_size)
              (X := sample_imports) self false) as [Hv [_ [Hok _]]].
  split; [exact Hv|apply Hok; reflexivity].
Defined.

(** ** The split point *)

Section Splitting.

Context {E : BitcoinEncoding} {X : Imported}.

(** After the loop the split point is the offset just behind the last
    input's script, and the sequence number is what follows it. *)
Lemma assemble_inputs_last (pre : list Input) (last : Input)
    (data d : bytes) (sp sp' : option nat) :
  assemble_inputs (pre ++ [last]) data sp = Ok (d, sp') ->
  exists head sq,
    pack fmt_L (seqno last) = Ok sq
    /\ d = (data ++ head ++ script_sig last) ++ sq
    /\ sp' = Some (List.length (data ++ head ++ script_sig last)).
Proof.
  revert data sp. induction pre as [|i pre IH]; intros data sp.
  - cbn [app assemble_inputs].
    destruct (pack fmt_L (prevout_idx last)) as [idx|]; [|discriminate].
    cbn [bindR].
    destruct (varlen_encode _) as [len|]; [|discriminate].
    cbn [bindR].
    destruct (pack fmt_L (seqno last)) as [sq|] eqn:Hs; [|discriminate].
    cbn [bindR]. intros H. injection H as <- <-.
    exists (prevout_hash last ++ idx ++ len), sq.
    rewrite <- !app_assoc. auto.
  - cbn [app assemble_inputs].
    destruct (pack fmt_L (prevout_idx i)) as [idx|]; [|discriminate].
    cbn [bindR].
    destruct (varlen_encode _) as [len|]; [|discriminate].
    cbn [bindR].
    destruct (pack fmt_L (seqno i)) as [sqi|]; [|discriminate].
    cbn [bindR]. intros H.
    apply IH in H as (head & sq & Hs & -> & ->).
    exists (prevout_hash i ++ idx ++ len ++ script_sig i ++ sqi ++ head), sq.
    rewrite <- !app_assoc. auto.
Qed.

Lemma default_version_inputs (self : Transaction) :
  inputs (default_version self) = inputs self.
Proof.
  unfold default_version.
  destruct (version self); [reflexivity|].
  now destruct (transaction_message self).
Qed.

Lemma assemble_rest_default_version (self : Transaction) (data : bytes) :
  assemble_rest (default_version self) data = assemble_rest self data.
Proof.
  unfold default_version.
  destruct (version self); [reflexivity|].
  now destruct (transaction_message self).
Qed.

End Splitting.

(** C4, for a transaction with at least one input.  Whenever
    [assemble()] returns a buffer, [assemble(split=True)] returns two
    parts that concatenate to it; the first part ends with the last
    input's script, the second part starts with the four bytes of that
    input's sequence number and goes on with everything written after
    the input loop.  Both calls leave the object in the same state, and
    both return on well-formed fields. *)
Theorem assemble_split_boundary {E : BitcoinEncoding} {X : Imported}
    (self : Transaction) (pre : list Input) (last : Input) :
  inputs self = pre ++ [last] ->
  (forall (data : bytes) (self' : Transaction),
     assemble false self = (Ok (Whole data), self') ->
     exists head sq tl,
       pack fmt_L (seqno last) = Ok sq
       /\ List.length sq = 4%nat
       /\ assemble_rest self [] = Ok tl
       /\ assemble true self
          = (Ok (Halves (head ++ script_sig last) (sq ++ tl)), self')
       /\ data = (head ++ script_sig last) ++ (sq ++ tl))
  /\ (well_formed self = true ->
      exists data self', assemble false self = (Ok (Whole data), self')).
Proof.
  intros Hin. split.
  - intros data self'. rewrite !assemble_unfold.
    destruct (assemble_data (default_version self)) as [[d sp]|e] eqn:Hd;
      [|discriminate].
    intros H. injection H as <- <-.
    unfold assemble_data in Hd.
    destruct (assemble_header _) as [hd|]; [|discriminate].
    cbn [bindR] in Hd. rewrite default_version_inputs, Hin in Hd.
    destruct (assemble_inputs _ hd None) as [[d1 sp1]|] eqn:Hi;
      [|discriminate].
    cbn [bindR] in Hd.
    rewrite assemble_rest_default_version, assemble_rest_acc in Hd.
    destruct (assemble_rest self []) as [tl|]; [|discriminate].
    cbn [bindR] in Hd. injection Hd as <- <-.
    apply assemble_inputs_last in Hi as (head & sq & Hs & -> & ->).
    exists (hd ++ head), sq, tl.
    rewrite <- !app_assoc.
    split; [exact Hs|]. split; [exact (pack_length _ _ _ Hs)|].
    split; [reflexivity|]. split; [|reflexivity].
    cbn [slice_to slice_from]. unfold upto, from.
    replace (hd ++ head ++ script_sig last ++ sq ++ tl)
      with ((hd ++ head ++ script_sig last) ++ sq ++ tl)
      by now rewrite <- !app_assoc.
    rewrite firstn_exact, skipn_exact.
    now rewrite <- !app_assoc.
  - intros Hw. destruct (assemble_ok false self Hw) as (data & sp & _ & H).
    eauto.
Qed.

Lemma assemble_split_boundary_witness :
  let coin := {| prevout_hash := repeat x00 32; prevout_idx := 4294967295;
                 script_sig := [x51; x00]; seqno := 4294967295 |} in
  let self := {| _raw := None; inputs := [coin];
                 outputs := [{| amount := 0; script_pub_key := [] |}];
                 locktime := 0; n_time := None; fees := None;
                 version := None; _hash := None;
                 transaction_message := None |} in
  exists data self',
    assemble (E := compact_size) (X := sample_imports) false self
    = (Ok (Whole data), self').
Proof.
  intros coin self.
  exact (proj2 (assemble_split_boundary (E := compact_size)
                  (X := sample_imports) self [] coin eq_refl) eq_refl).
Defined.

(** Without inputs there is no split point: both bounds of the two
    slices are [None] and each part is the whole buffer, so the parts
    do not concatenate to it. *)
Lemma assemble_split_without_inputs :
  exists (self : Transaction) (data : bytes),
    __init__ (E := compact_size) PyNone None false false false = Ok self
    /\ fst (assemble (E := compact_size) (X := sample_imports) false self)
       = Ok (Whole data)
    /\ fst (assemble (E := compact_size) (X := sample_imports) true self)
       = Ok (Halves data data)
    /\ data ++ data <> data.
Proof.
  eexists. eexists. split; [reflexivity|]. split; [reflexivity|].
  split; [reflexivity|]. discriminate.
Qed.

(** ** Parsing a buffer with more bytes behind it *)

Lemma bind_run {A B} (m : M A) (k : A -> M B) (s s' : Transaction) (a : A) :
  m s = (Ok a, s') -> (x <- m ;; k x) s = k a s'.
Proof. unfold bind. now intros ->. Qed.

Lemma bind_fst {A B} (m : M A) (k : A -> M B) (s : Transaction) (a : A) :
  fst (m s) = Ok a -> (x <- m ;; k x) s = k a (snd (m s)).
Proof.
  unfold bind. destruct (m s) as [[a'|e] s']; cbn; [|discriminate].
  now intros [= ->].
Qed.

Lemma slice_app_le (a b : nat) (data extra : bytes) :
  (b <= List.length data)%nat ->
  slice a b (data ++ extra) = slice a b data.
Proof.
  intros H. unfold slice.
  destruct (le_lt_dec a (List.length data)) as [Ha|Ha].
  - rewrite skipn_app_le by exact Ha.
    apply firstn_app_le. rewrite length_skipn. lia.
  - now replace (b - a)%nat with O by lia.
Qed.

Lemma upto_app_le (n : nat) (data extra : bytes) :
  (n <= List.length data)%nat -> upto n (data ++ extra) = upto n data.
Proof. apply firstn_app_le. Qed.

Lemma from_app_le (n : nat) (data extra : bytes) :
  (n <= List.length data)%nat ->
  from n (data ++ extra) = from n data ++ extra.
Proof. apply skipn_app_le. Qed.

Lemma slice_full (a b : nat) (data : bytes) :
  List.length (slice a b data) = (b - a)%nat -> (a < b)%nat ->
  (b <= List.length data)%nat.
Proof.
  unfold slice. rewrite length_firstn, length_skipn. lia.
Qed.

Lemma funpack_slice (f : fmt) (a b : nat) (data : bytes) (v : Z) :
  funpack f (slice a b data) = Ok v -> (b - a)%nat = width f ->
  (a < b)%nat -> (b <= List.length data)%nat.
Proof.
  intros H Hw Hab. apply unpack_length in H.
  apply (slice_full a b); [congruence|exact Hab].
Qed.

Lemma funpack_upto (f : fmt) (n : nat) (data : bytes) (v : Z) :
  funpack f (upto n data) = Ok v -> n = width f ->
  (n <= List.length data)%nat.
Proof.
  intros H ->. apply unpack_length in H. now apply firstn_full_length.
Qed.

Section Trailing.

Context {E : BitcoinEncoding}.

Lemma disassemble_inputs_app (n : nat) (data rest extra : bytes)
    (s1 s1' s2 : Transaction) :
  disassemble_inputs n data s1 = (Ok rest, s1') ->
  fst (disassemble_inputs n (data ++ extra) s2) = Ok (rest ++ extra).
Proof.
  revert data s1 s2. induction n as [|n IH]; intros data s1 s2.
  - cbn. now intros [= -> _].
  - cbn [disassemble_inputs]. rewrite !bind_lift.
    destruct (funpack fmt_L (slice 32 36 data)) as [idx|] eqn:Hidx;
      [|discriminate].
    pose proof (funpack_slice _ _ _ _ _ Hidx eq_refl ltac:(lia)) as Hl.
    rewrite (slice_app_le 32 36) by exact Hl. rewrite Hidx.
    rewrite !bind_lift.
    destruct (varlen_decode (from 36 data)) as [[ss d2]|] eqn:Hdec;
      [|discriminate].
    rewrite from_app_le by lia.
    rewrite (varlen_decode_app _ _ extra _ Hdec).
    rewrite !bind_lift.
    destruct (funpack fmt_L (slice (N.to_nat ss) (N.to_nat ss + 4) d2))
      as [sq|] eqn:Hsq; [|discriminate].
    pose proof (funpack_slice _ _ _ _ _ Hsq ltac:(cbn; lia) ltac:(lia))
      as Hl2.
    rewrite slice_app_le by exact Hl2. rewrite Hsq.
    rewrite !bind_modify. unfold from.
    rewrite skipn_app_le by exact Hl2.
    apply IH.
Qed.

Lemma disassemble_outputs_nil (n : nat) (rest : bytes)
    (s s' : Transaction) :
  disassemble_outputs n [] s = (Ok rest, s') -> rest = [].
Proof.
  destruct n as [|n]; cbn.
  - now intros [= <- _].
  - discriminate.
Qed.

Lemma disassemble_outputs_app (n : nat) (data rest extra : bytes)
    (s1 s1' s2 : Transaction) :
  disassemble_outputs n data s1 = (Ok rest, s1') ->
  rest <> [] ->
  fst (disassemble_outputs n (data ++ extra) s2) = Ok (rest ++ extra).
Proof.
  revert data s1 s2. induction n as [|n IH]; intros data s1 s2.
  - cbn. now intros [= -> _].
  - cbn [disassemble_outputs]. rewrite !bind_lift.
    destruct (funpack fmt_Q (upto 8 data)) as [amt|] eqn:Hamt;
      [|discriminate].
    pose proof (funpack_upto _ _ _ _ Hamt eq_refl) as Hl.
    rewrite upto_app_le by exact Hl. rewrite Hamt.
    rewrite !bind_lift.
    destruct (varlen_decode (from 8 data)) as [[ps d2]|] eqn:Hdec;
      [|discriminate].
    rewrite from_app_le by exact Hl.
    rewrite (varlen_decode_app _ _ extra _ Hdec).
    rewrite !bind_modify. intros Hrun Hne.
    destruct (le_lt_dec (N.to_nat ps) (List.length d2)) as [Hps|Hps].
    + unfold from. rewrite skipn_app_le by exact Hps.
      eapply IH; eauto.
    + unfold from in Hrun. rewrite skipn_all2 in Hrun by lia.
      apply disassemble_outputs_nil in Hrun. contradiction.
Qed.

Lemma disassemble_fields_app (data rest extra : bytes)
    (s1 s1' s2 : Transaction) :
  disassemble_fields data s1 = (Ok rest, s1') ->
  rest <> [] ->
  fst (disassemble_fields (data ++ extra) s2) = Ok (rest ++ extra).
Proof.
  unfold disassemble_fields. rewrite !bind_lift.
  destruct (funpack fmt_L (upto 4 data)) as [v|] eqn:Hv; [|discriminate].
  pose proof (funpack_upto _ _ _ _ Hv eq_refl) as Hl.
  rewrite upto_app_le by exact Hl. rewrite Hv.
  rewrite !bind_modify, !bind_lift.
  destruct (varlen_decode (from 4 data)) as [[ic d1]|] eqn:Hdec;
    [|discriminate].
  rewrite from_app_le by exact Hl.
  rewrite (varlen_decode_app _ _ extra _ Hdec).
  rewrite !bind_modify.
  destruct (disassemble_inputs (N.to_nat ic) d1
              (set_inputs [] (set_version (Some v) s1)))
    as [[d2|e] s3] eqn:Hin.
  2: { unfold bind at 1. rewrite Hin. discriminate. }
  rewrite (bind_run _ _ _ _ _ Hin).
  pose proof (disassemble_inputs_app _ _ _ extra _ _
                (set_inputs [] (set_version (Some v) s2)) Hin) as Hin2.
  rewrite (bind_fst _ _ _ _ Hin2).
  rewrite !bind_lift.
  destruct (varlen_decode d2) as [[oc d3]|] eqn:Hdec2; [|discriminate].
  rewrite (varlen_decode_app _ _ extra _ Hdec2).
  rewrite !bind_modify.
  intros Hout Hne. eapply disassemble_outputs_app; eauto.
Qed.

(** The last step accepts exactly a four-byte remainder. *)
Lemma disassemble_locktime_result (dump : bool) (rest : bytes)
    (s : Transaction) :
  fst (disassemble_locktime dump rest s)
  = match Nat.compare (List.length rest) 4 with
    | Eq => Ok tt
    | Lt => Raise StructError
    | Gt => Raise AssertionError
    end.
Proof.
  unfold disassemble_locktime. rewrite bind_lift.
  destruct (Nat.compare_spec (List.length rest) 4) as [Hc|Hc|Hc].
  - unfold funpack, unpack, upto. rewrite firstn_all2 by lia.
    rewrite Hc. cbn [width Nat.eqb].
    rewrite !bind_modify. cbn [Nat.eqb].
    rewrite bind_ret. now destruct dump.
  - unfold funpack. rewrite unpack_short; [reflexivity|].
    unfold upto. rewrite length_firstn. cbn [width]. lia.
  - unfold funpack, unpack, upto. rewrite length_firstn.
    replace (Nat.min 4 (List.length rest)) with 4%nat by lia.
    cbn [width Nat.eqb]. rewrite !bind_modify.
    destruct (Nat.eqb_spec (List.length rest) 4) as [Heq|Hne]; [lia|].
    reflexivity.
Qed.

End Trailing.

Section Rejecting.

Context {E : BitcoinEncoding}.

Lemma disassemble_unfold (raw : option bytes) (dump : bool)
    (fees : option Z) (self : Transaction) :
  let s0 := if truthy_int fees then set_fees fees self else self in
  let s1 := if truthy_bytes raw then set_raw raw s0 else s0 in
  disassemble raw dump fees self
  = match _raw s1 with
    | Some data =>
        (d <- disassemble_fields data ;; disassemble_locktime dump d) s1
    | None => (Raise TypeError, s1)
    end.
Proof.
  unfold disassemble.
  destruct (truthy_int fees), (truthy_bytes raw); cbn [when];
    repeat (rewrite bind_modify || rewrite bind_ret);
    rewrite bind_get;
    match goal with
    | |- context [_raw ?s] => destruct (_raw s); reflexivity
    end.
Qed.

(** Two objects, one holding a buffer and the other the same buffer
    with more bytes behind it: if parsing the first returns, parsing the
    second stops at the check for trailing data. *)
Lemma disassemble_trailing (b extra : bytes) (dump dump' : bool)
    (s1 s1' s2 : Transaction) :
  extra <> [] ->
  _raw s1 = Some b ->
  _raw s2 = Some (b ++ extra) ->
  (d <- disassemble_fields b ;; disassemble_locktime dump d) s1
  = (Ok tt, s1') ->
  fst ((d <- disassemble_fields (b ++ extra) ;;
        disassemble_locktime dump' d) s2) = Raise AssertionError.
Proof.
  intros Hne Hr1 Hr2.
  destruct (disassemble_fields b s1) as [[rest|e] s3] eqn:Hf.
  2: { unfold bind. rewrite Hf. discriminate. }
  rewrite (bind_run _ _ _ _ _ Hf). intros Hlt.
  pose proof (disassemble_locktime_result dump rest s3) as Hres.
  rewrite Hlt in Hres. cbn [fst] in Hres.
  destruct (Nat.compare_spec (List.length rest) 4) as [Hc|Hc|Hc];
    try discriminate.
  assert (Hrest : rest <> []) by (destruct rest; [discriminate|easy]).
  pose proof (disassemble_fields_app _ _ extra _ _ s2 Hf Hrest) as Hf2.
  rewrite (bind_fst _ _ _ _ Hf2).
  rewrite disassemble_locktime_result, length_app, Hc.
  destruct extra as [|x extra]; [contradiction|].
  cbn [List.length].
  destruct (Nat.compare_spec (4 + S (List.length extra)) 4); [lia|lia|].
  reflexivity.
Qed.

End Rejecting.

(** C3.  Let [b] be a buffer that [disassemble] accepts and [extra] a
    non-empty run of bytes.  Parsing [b ++ extra], whether it is stored
    in the object, passed as [raw] or given to the constructor with
    [disassemble=True], ends in [AssertionError].  In general, once
    inputs and outputs have been read, the call returns exactly when
    four bytes are left: fewer make the lock-time read fail, more trip
    the assertion. *)
Theorem disassemble_rejects_trailing_bytes {E : BitcoinEncoding}
    (b extra : bytes) :
  extra <> [] ->
  (forall (dump : bool) (fees : option Z) (self self' : Transaction),
     _raw self = Some b ->
     disassemble None dump fees self = (Ok tt, self') ->
     fst (disassemble None dump fees (set_raw (Some (b ++ extra)) self))
     = Raise AssertionError
     /\ fst (disassemble (Some (b ++ extra)) dump fees self)
        = Raise AssertionError)
  /\ (forall (fees : option Z) (pos msgs : bool) (t : Transaction),
        __init__ (PyNewbytes b) fees true pos msgs = Ok t ->
        __init__ (PyNewbytes (b ++ extra)) fees true pos msgs
        = Raise AssertionError)
  /\ (forall (dump : bool) (data rest : bytes) (s s1 : Transaction),
        disassemble_fields data s = (Ok rest, s1) ->
        fst (disassemble_locktime dump rest s1)
        = match Nat.compare (List.length rest) 4 with
          | Eq => Ok tt
          | Lt => Raise StructError
          | Gt => Raise AssertionError
          end).
Proof.
  intros Hne.
  assert (Htruthy : truthy_bytes (Some (b ++ extra)) = true).
  { destruct (b ++ extra) eqn:Happ; [|reflexivity].
    apply app_eq_nil in Happ as [_ ->]. contradiction. }
  split; [|split].
  - intros dump fees self self' Hraw.
    rewrite !disassemble_unfold. cbn zeta. rewrite Htruthy.
    cbn [truthy_bytes].
    assert (Hs0 : _raw (if truthy_int fees then set_fees fees self
                        else self) = Some b)
      by (destruct (truthy_int fees); exact Hraw).
    rewrite Hs0. intros Hrun. split.
    + assert (Hs2 : _raw (if truthy_int fees
                          then set_fees fees
                                 (set_raw (Some (b ++ extra)) self)
                          else set_raw (Some (b ++ extra)) self)
                    = Some (b ++ extra))
        by (destruct (truthy_int fees); reflexivity).
      rewrite Hs2.
      eapply disassemble_trailing; eauto.
    + cbn [_raw set_raw].
      eapply disassemble_trailing; eauto.
  - intros fees pos msgs t. unfold __init__. cbn [truthy].
    destruct b as [|x b'] eqn:Hb; [discriminate|].
    cbn [app List.length Nat.eqb negb bindR].
    rewrite !disassemble_unfold. cbn zeta. cbn [truthy_int truthy_bytes _raw].
    match goal with
    | |- match ?run with _ => _ end = _ -> _ =>
        destruct run as [[[]|e] s1'] eqn:Hrun; [|discriminate]
    end.
    intros _.
    match goal with
    | |- match ?run2 with _ => _ end = _ =>
        assert (H2 : fst run2 = Raise AssertionError)
    end.
    { refine (disassemble_trailing (x :: b') extra false false
                _ _ _ Hne _ _ Hrun); reflexivity. }
    match goal with
    | |- match ?run2 with _ => _ end = _ =>
        destruct run2 as [[u|e] s2']
    end; cbn [fst] in H2; [discriminate|congruence].
  - intros dump data rest s s1 _. apply disassemble_locktime_result.
Qed.

Lemma disassemble_rejects_trailing_bytes_witness :
  __init__ (E := compact_size) (PyNewbytes (scenario_buffer ++ [x00]))
           None true false false
  = Raise AssertionError.
Proof.
  refine (proj1 (proj2 (disassemble_rejects_trailing_bytes
                          (E := compact_size) scenario_buffer [x00] _))
            None false false _ _).
  - discriminate.
  - reflexivity.
Defined.

(** The scenario itself parses to the fields the spec lists, and is a
    coinbase transaction. *)
Example scenario_parses :
  exists t,
    __init__ (E := compact_size) (PyNewbytes scenario_buffer)
             None true false false = Ok t
    /\ version t = Some 1
    /\ inputs t = [{| prevout_hash := repeat x00 32;
                      prevout_idx := 0xFFFFFFFF;
                      script_sig := [x51; x00];
                      seqno := 0xFFFFFFFF |}]
    /\ outputs t = [{| amount := 0; script_pub_key := [] |}]
    /\ locktime t = 0
    /\ fst (is_coinbase t) = Ok true.
Proof.
  eexists. split; [reflexivity|]. repeat split.
Qed.

(** ** Reading back what was written *)

Lemma upto_front (n : nat) (a r : bytes) :
  List.length a = n -> upto n (a ++ r) = a.
Proof. intros <-. apply firstn_exact. Qed.

Lemma from_front (n : nat) (a r : bytes) :
  List.length a = n -> from n (a ++ r) = r.
Proof. intros <-. apply skipn_exact. Qed.

Lemma slice_front (n m : nat) (a c r : bytes) :
  List.length a = n -> List.length c = (m - n)%nat ->
  slice n m (a ++ c ++ r) = c.
Proof.
  intros <- Hc. unfold slice. rewrite skipn_exact, <- Hc.
  apply firstn_exact.
Qed.

Lemma from_front2 (n m : nat) (a c r : bytes) :
  List.length a = n -> List.length c = (m - n)%nat -> (n <= m)%nat ->
  from m (a ++ c ++ r) = r.
Proof.
  intros Ha Hc Hnm. unfold from.
  replace m with (List.length (a ++ c)) by (rewrite length_app; lia).
  rewrite app_assoc. apply skipn_exact.
Qed.

Section RoundTrip.

Context {E : BitcoinEncoding}.

Lemma roundtrip_inputs (ins : list Input) (data d : bytes)
    (sp sp' : option nat) :
  forallb valid_input ins = true ->
  assemble_inputs ins data sp = Ok (d, sp') ->
  exists w,
    d = data ++ w
    /\ forall (rest : bytes) (self : Transaction),
         disassemble_inputs (List.length ins) (w ++ rest) self
         = (Ok rest, set_inputs (inputs self ++ ins) self).
Proof.
  revert data sp. induction ins as [|i ins IH]; intros data sp Hv.
  - cbn. intros [= <- _]. exists []. split; [now rewrite app_nil_r|].
    intros rest self. cbn. now rewrite app_nil_r, set_inputs_same.
  - cbn [forallb] in Hv. apply andb_true_iff in Hv as [Hi Hv].
    unfold valid_input in Hi.
    apply andb_true_iff in Hi as [Hi _].
    apply andb_true_iff in Hi as [Hi _].
    apply andb_true_iff in Hi as [Hh _].
    apply Nat.eqb_eq in Hh.
    cbn [assemble_inputs].
    destruct (pack fmt_L (prevout_idx i)) as [idx|] eqn:Hidx;
      [|discriminate].
    cbn [bindR].
    destruct (varlen_encode _) as [len|] eqn:Hlen; [|discriminate].
    cbn [bindR].
    destruct (pack fmt_L (seqno i)) as [sq|] eqn:Hsq; [|discriminate].
    cbn [bindR]. intros Hrec.
    destruct (IH _ _ Hv Hrec) as (w & -> & Hparse).
    exists (prevout_hash i ++ idx ++ len ++ script_sig i ++ sq ++ w).
    split; [now rewrite <- !app_assoc|].
    intros rest self. rewrite <- !app_assoc.
    pose proof (pack_length _ _ _ Hidx) as Lidx.
    pose proof (pack_length _ _ _ Hsq) as Lsq.
    cbn [width] in Lidx, Lsq.
    cbn [disassemble_inputs List.length].
    rewrite (upto_front 32) by exact Hh.
    rewrite (slice_front 32 36) by (cbn; assumption).
    rewrite (from_front2 32 36) by (cbn; (assumption || lia)).
    unfold funpack at 1.
    rewrite (unpack_pack_unsigned fmt_L _ _ eq_refl Hidx).
    rewrite bind_lift.
    rewrite (varlen_decode_encode _ _ _ Hlen), bind_lift.
    rewrite Nat2N.id.
    rewrite (upto_front (List.length (script_sig i))) by reflexivity.
    rewrite (slice_front (List.length (script_sig i)))
      by (try reflexivity; rewrite Lsq; lia).
    rewrite (from_front2 (List.length (script_sig i)))
      by (try reflexivity; try lia; rewrite Lsq; lia).
    unfold funpack at 1.
    rewrite (unpack_pack_unsigned fmt_L _ _ eq_refl Hsq).
    rewrite bind_lift, bind_modify, Hparse.
    f_equal. cbn. rewrite <- app_assoc. cbn.
    now destruct i.
Qed.

Lemma roundtrip_outputs (outs : list Output) (data d : bytes) :
  assemble_outputs outs data = Ok d ->
  exists w,
    d = data ++ w
    /\ forall (rest : bytes) (self : Transaction),
         disassemble_outputs (List.length outs) (w ++ rest) self
         = (Ok rest, set_outputs (outputs self ++ outs) self).
Proof.
  revert data. induction outs as [|o outs IH]; intros data.
  - cbn. intros [= <-]. exists []. split; [now rewrite app_nil_r|].
    intros rest self. cbn. now rewrite app_nil_r, set_outputs_same.
  - cbn [assemble_outputs].
    destruct (pack fmt_Q (amount o)) as [amt|] eqn:Hamt; [|discriminate].
    cbn [bindR].
    destruct (varlen_encode _) as [len|] eqn:Hlen; [|discriminate].
    cbn [bindR]. intros Hrec.
    destruct (IH _ Hrec) as (w & -> & Hparse).
    exists (amt ++ len ++ script_pub_key o ++ w).
    split; [now rewrite <- !app_assoc|].
    intros rest self. rewrite <- !app_assoc.
    pose proof (pack_length _ _ _ Hamt) as Lamt. cbn [width] in Lamt.
    cbn [disassemble_outputs List.length].
    rewrite (upto_front 8) by exact Lamt.
    rewrite (from_front 8) by exact Lamt.
    unfold funpack at 1.
    rewrite (unpack_pack_unsigned fmt_Q _ _ eq_refl Hamt).
    rewrite bind_lift.
    rewrite (varlen_decode_encode _ _ _ Hlen), bind_lift.
    rewrite Nat2N.id.
    rewrite (upto_front (List.length (script_pub_key o))) by reflexivity.
    rewrite (from_front (List.length (script_pub_key o))) by reflexivity.
    rewrite bind_modify, Hparse.
    f_equal. cbn. rewrite <- app_assoc. cbn.
    now destruct o.
Qed.

End RoundTrip.

Section RoundTripWhole.

Context {E : BitcoinEncoding} {X : Imported}.

Lemma disassemble_locktime_run (dump : bool) (lt : bytes) (l : Z)
    (s : Transaction) :
  pack fmt_L l = Ok lt ->
  disassemble_locktime dump lt s
  = (Ok tt,
     let s' := set_hash None (set_locktime l s) in
     if dump then set_raw None s' else s').
Proof.
  intros Hp. pose proof (pack_length _ _ _ Hp) as Hl. cbn [width] in Hl.
  unfold disassemble_locktime, upto.
  rewrite firstn_all2 by lia. unfold funpack.
  rewrite (unpack_pack_unsigned fmt_L _ _ eq_refl Hp).
  rewrite bind_lift, !bind_modify, Hl. cbn [Nat.eqb].
  rewrite bind_ret. now destruct dump.
Qed.

(** Parsing a buffer written without time stamp and message gives back
    the fields it was written from, whatever the object held before. *)
Lemma parse_assembled (t : Transaction) (data : bytes) (sp : option nat) :
  forallb valid_input (inputs t) = true ->
  n_time t = None ->
  transaction_message t = None ->
  assemble_data t = Ok (data, sp) ->
  data <> []
  /\ forall (dump : bool) (s : Transaction),
       exists s2,
         (d <- disassemble_fields data ;; disassemble_locktime dump d) s
         = (Ok tt, s2)
         /\ inputs s2 = inputs t
         /\ outputs s2 = outputs t
         /\ locktime s2 = locktime t
         /\ version s2 = version t.
Proof.
  intros Hv Hnt Hmsg.
  unfold assemble_data, assemble_header, assemble_rest.
  rewrite Hnt, Hmsg.
  destruct (version t) as [v|] eqn:Hver; [|discriminate].
  destruct (pack fmt_L v) as [ver|] eqn:Hpv; [|discriminate].
  cbn [bindR].
  destruct (varlen_encode (N.of_nat (List.length (inputs t))))
    as [cnt|] eqn:Hcnt; [|discriminate].
  cbn [bindR].
  destruct (assemble_inputs (inputs t) (ver ++ cnt) None)
    as [[d1 sp1]|] eqn:Hin; [|discriminate].
  cbn [bindR].
  destruct (varlen_encode (N.of_nat (List.length (outputs t))))
    as [cnto|] eqn:Hcnto; [|discriminate].
  cbn [bindR].
  destruct (assemble_outputs (outputs t) (d1 ++ cnto))
    as [d2|] eqn:Hout; [|discriminate].
  cbn [bindR].
  destruct (pack fmt_L (locktime t)) as [lt|] eqn:Hlt; [|discriminate].
  cbn [bindR]. intros [= <- <-].
  destruct (roundtrip_inputs _ _ _ _ _ Hv Hin) as (win & -> & Pin).
  destruct (roundtrip_outputs _ _ _ Hout) as (wout & -> & Pout).
  pose proof (pack_length _ _ _ Hpv) as Lver. cbn [width] in Lver.
  rewrite <- !app_assoc. split.
  { destruct ver; [discriminate|]. discriminate. }
  intros dump s.
  assert (Hf : disassemble_fields
                 (ver ++ cnt ++ win ++ cnto ++ wout ++ lt) s
               = (Ok lt,
                  set_outputs (outputs t)
                    (set_inputs (inputs t) (set_version (Some v) s)))).
  { unfold disassemble_fields.
    rewrite (upto_front 4) by exact Lver.
    rewrite (from_front 4) by exact Lver.
    unfold funpack at 1.
    rewrite (unpack_pack_unsigned fmt_L _ _ eq_refl Hpv).
    rewrite bind_lift, bind_modify.
    rewrite (varlen_decode_encode _ _ _ Hcnt), bind_lift, bind_modify.
    rewrite Nat2N.id.
    rewrite (bind_run _ _ _ _ _ (Pin _ _)).
    rewrite (varlen_decode_encode _ _ _ Hcnto), bind_lift, bind_modify.
    rewrite Nat2N.id, Pout. reflexivity. }
  rewrite (bind_run _ _ _ _ _ Hf).
  rewrite (disassemble_locktime_run dump lt _ _ Hlt).
  eexists. split; [reflexivity|].
  destruct dump; cbn; auto.
Qed.

End RoundTripWhole.

(** C1, for a transaction without time stamp and without message.  If
    its fields are well formed, [assemble()] returns a buffer and keeps
    inputs, outputs and lock time (the version becomes 1 if it was
    unset); parsing that buffer, into any object or through the
    constructor, returns and yields the same inputs, outputs, lock time
    and version. *)
Theorem disassemble_assemble_roundtrip {E : BitcoinEncoding} {X : Imported}
    (t : Transaction) :
  well_formed t = true ->
  n_time t = None ->
  transaction_message t = None ->
  exists (data : bytes) (t1 : Transaction),
    assemble false t = (Ok (Whole data), t1)
    /\ inputs t1 = inputs t
    /\ outputs t1 = outputs t
    /\ locktime t1 = locktime t
    /\ version t1 = Some match version t with Some v => v | None => 1 end
    /\ (forall (t0 : Transaction) (dump : bool) (fees : option Z),
          exists t2,
            disassemble (Some data) dump fees t0 = (Ok tt, t2)
            /\ inputs t2 = inputs t1
            /\ outputs t2 = outputs t1
            /\ locktime t2 = locktime t1
            /\ version t2 = version t1)
    /\ (forall (fees : option Z) (pos msgs : bool),
          exists t2,
            __init__ (PyNewbytes data) fees true pos msgs = Ok t2
            /\ inputs t2 = inputs t1
            /\ outputs t2 = outputs t1
            /\ locktime t2 = locktime t1
            /\ version t2 = version t1).
Proof.
  intros Hw Hnt Hmsg.
  destruct (assemble_ok false t Hw) as (data & sp & Hd & Hrun).
  assert (Hdv : default_version t
                = match version t with
                  | Some _ => t
                  | None => set_version (Some 1) t
                  end).
  { unfold default_version. now rewrite Hmsg. }
  assert (Hfields : inputs (default_version t) = inputs t
                    /\ outputs (default_version t) = outputs t
                    /\ locktime (default_version t) = locktime t
                    /\ n_time (default_version t) = None
                    /\ transaction_message (default_version t) = None
                    /\ version (default_version t)
                       = Some match version t with
                              | Some v => v
                              | None => 1
                              end).
  { rewrite Hdv. destruct (version t) eqn:Hv; cbn; auto 10. }
  destruct Hfields as (Hi & Ho & Hl & Hn & Hm & Hv).
  assert (Hvi : forallb valid_input (inputs (default_version t)) = true).
  { rewrite Hi. unfold well_formed in Hw.
    repeat (apply andb_true_iff in Hw as [Hw _]). exact Hw. }
  destruct (parse_assembled _ _ _ Hvi Hn Hm Hd) as [Hne Hparse].
  exists data, (set_hash None (set_raw (Some data) (default_version t))).
  split; [exact Hrun|]. cbn [inputs outputs locktime version set_hash set_raw].
  split; [exact Hi|]. split; [exact Ho|]. split; [exact Hl|].
  split; [exact Hv|].
  assert (Htruthy : truthy_bytes (Some data) = true)
    by (destruct data; [contradiction|reflexivity]).
  split.
  - intros t0 dump fees. rewrite disassemble_unfold. cbn zeta.
    rewrite Htruthy. cbn [_raw set_raw].
    apply Hparse.
  - intros fees pos msgs. unfold __init__. cbn [truthy].
    destruct data as [|x data']; [contradiction|].
    cbn [List.length Nat.eqb negb bindR].
    rewrite disassemble_unfold. cbn zeta.
    cbn [truthy_int truthy_bytes _raw].
    match goal with
    | |- context [(_ <- disassemble_fields _ ;; _) ?s] =>
        destruct (Hparse false s) as (s2 & -> & Hs2)
    end.
    exists s2. split; [reflexivity|exact Hs2].
Qed.

Lemma disassemble_assemble_roundtrip_witness :
  let coin := {| prevout_hash := repeat x00 32; prevout_idx := 4294967295;
                 script_sig := [x51; x00]; seqno := 4294967295 |} in
  let t := {| _raw := None; inputs := [coin];
              outputs := [{| amount := 5000000000;
                             script_pub_key := [x76; xa9] |}];
              locktime := 0; n_time := None; fees := None;
              version := None; _hash := None;
              transaction_message := None |} in
  exists (data : bytes) (t1 t2 : Transaction),
    assemble (E := compact_size) (X := sample_imports) false t
    = (Ok (Whole data), t1)
    /\ disassemble (E := compact_size) (Some data) false None t1
       = (Ok tt, t2)
    /\ inputs t2 = inputs t /\ outputs t2 = outputs t.
Proof.
  intros coin t.
  destruct (disassemble_assemble_roundtrip (E := compact_size)
              (X := sample_imports) t eq_refl eq_refl eq_refl)
    as (data & t1 & Ha & Hi & Ho & _ & _ & Hd & _).
  destruct (Hd t1 false None) as (t2 & Hrun & Hi2 & Ho2 & _).
  exists data, t1, t2. split; [exact Ha|]. split; [exact Hrun|].
  split; congruence.
Defined.

(** With the time stamp or the message enabled the buffer carries bytes
    that [disassemble] does not expect, and parsing it back stops at the
    check for trailing data. *)
Lemma roundtrip_fails_with_optional_fields :
  (exists (t : Transaction) (data : bytes),
     __init__ (E := compact_size) PyNone None false true false = Ok t
     /\ well_formed (E := compact_size) t = true
     /\ fst (assemble (E := compact_size) (X := sample_imports) false t)
        = Ok (Whole data)
     /\ fst (disassemble (E := compact_size) (Some data) false None t)
        = Raise AssertionError)
  /\ (exists (t : Transaction) (data : bytes),
        __init__ (E := compact_size) PyNone None false false true = Ok t
        /\ well_formed (E := compact_size) t = true
        /\ fst (assemble (E := compact_size) (X := sample_imports) false t)
           = Ok (Whole data)
        /\ fst (disassemble (E := compact_size) (Some data) false None t)
           = Raise AssertionError).
Proof.
  split; eexists; eexists; (split; [reflexivity|]);
    (split; [reflexivity|]); (split; [reflexivity|]); reflexivity.
Qed.

(** ** The cache stays coherent *)

Section Coherence.

Context {E : BitcoinEncoding} {X : Imported}.

(** A [disassemble] that returns has emptied the cache. *)
Lemma disassemble_ok_hash (raw : option bytes) (dump : bool)
    (fees : option Z) (s s' : Transaction) :
  disassemble raw dump fees s = (Ok tt, s') -> _hash s' = None.
Proof.
  rewrite disassemble_unfold. cbn zeta.
  match goal with
  | |- context [_raw ?s1] => destruct (_raw s1) as [data|]; [|discriminate];
                             generalize s1; intros s1'
  end.
  unfold bind at 1.
  destruct (disassemble_fields data s1') as [[rest|e] s3]; [|discriminate].
  unfold disassemble_locktime. rewrite bind_lift.
  destruct (funpack fmt_L (upto 4 rest)) as [l|]; [|discriminate].
  rewrite !bind_modify.
  destruct (List.length rest =? 4)%nat; [|discriminate].
  rewrite bind_ret. destruct dump; intros [= <-]; reflexivity.
Qed.

Lemma hash_coherent_disassemble (raw : option bytes) (dump : bool)
    (fees : option Z) (s s' : Transaction) :
  disassemble raw dump fees s = (Ok tt, s') -> hash_coherent s' = true.
Proof.
  intros H. apply disassemble_ok_hash in H.
  unfold hash_coherent. now rewrite H.
Qed.

Lemma hash_coherent_init (raw : pyarg) (fees : option Z)
    (d pos msgs : bool) (t : Transaction) :
  __init__ raw fees d pos msgs = Ok t -> hash_coherent t = true.
Proof.
  unfold __init__.
  destruct (if truthy raw then _ else _) as [r|]; [|discriminate].
  cbn [bindR]. destruct d.
  - destruct (disassemble None false None _) as [[[]|e] s'] eqn:Hd;
      [|discriminate].
    intros [= <-]. eapply hash_coherent_disassemble; eauto.
  - intros [= <-]. reflexivity.
Qed.

Lemma hash_coherent_assemble (split : bool) (s : Transaction) :
  hash_coherent s = true -> hash_coherent (snd (assemble split s)) = true.
Proof.
  intros Hc. rewrite assemble_unfold.
  destruct (assemble_data (default_version s)) as [[data sp]|e];
    [reflexivity|].
  cbn [snd]. unfold default_version.
  destruct (version s); [exact Hc|].
  destruct (transaction_message s); exact Hc.
Qed.

End Coherence.

(** * Further properties of the module *)

(** ** Assembling twice, and hashing what was assembled *)

Section Reassembling.

Context {E : BitcoinEncoding} {X : Imported}.

(** The buffer and the cache are not read by the serialiser. *)
Lemma assemble_data_cache (r : option bytes) (h : option bytes)
    (s : Transaction) :
  assemble_data (set_hash h (set_raw r s)) = assemble_data s.
Proof. reflexivity. Qed.

Lemma default_version_fixed (s : Transaction) :
  default_version (default_version s) = default_version s.
Proof.
  unfold default_version.
  destruct (version s) eqn:Hv; [now rewrite Hv|].
  now destruct (transaction_message s).
Qed.

Lemma default_version_cache (r h : option bytes) (s : Transaction) :
  default_version (set_hash h (set_raw r s))
  = set_hash h (set_raw r (default_version s)).
Proof.
  unfold default_version. cbn [version transaction_message set_hash set_raw].
  destruct (version s); [reflexivity|].
  now destruct (transaction_message s).
Qed.

Lemma assemble_state (split : bool) (s s1 : Transaction) (res : assembled) :
  assemble split s = (Ok res, s1) ->
  exists data sp,
    assemble_data (default_version s) = Ok (data, sp)
    /\ s1 = set_hash None (set_raw (Some data) (default_version s))
    /\ res = if split then Halves (slice_to sp data) (slice_from sp data)
             else Whole data.
Proof.
  rewrite assemble_unfold.
  destruct (assemble_data (default_version s)) as [[data sp]|e];
    [|discriminate].
  intros [= <- <-]. now exists data, sp.
Qed.

End Reassembling.

(** X1. Once [assemble] has returned, calling it again on the object
    returns the same result and leaves the object as it is: the buffer,
    the defaulted version and the empty cache are a fixed point. *)
Theorem assemble_idempotent {E : BitcoinEncoding} {X : Imported}
    (split : bool) (s s1 : Transaction) (res : assembled) :
  assemble split s = (Ok res, s1) ->
  assemble split s1 = (Ok res, s1)
  /\ (forall split' : bool, snd (assemble split' s1) = s1)
  /\ fst (hash (snd (assemble split s1))) = fst (hash s1).
Proof.
  intros H. destruct (assemble_state _ _ _ _ H) as (data & sp & Hd & -> & ->).
  assert (Hfix : forall split',
             assemble split'
               (set_hash None (set_raw (Some data) (default_version s)))
             = (Ok (if split'
                    then Halves (slice_to sp data) (slice_from sp data)
                    else Whole data),
                set_hash None (set_raw (Some data) (default_version s)))).
  { intros split'. rewrite assemble_unfold.
    rewrite default_version_cache, default_version_fixed.
    rewrite assemble_data_cache, Hd.
    reflexivity. }
  split; [apply Hfix|]. split.
  - intros split'. now rewrite Hfix.
  - now rewrite Hfix.
Qed.

Lemma assemble_idempotent_witness :
  let s := {| _raw := None; inputs := []; outputs := []; locktime := 7;
              n_time := Some 5; fees := None; version := None;
              _hash := Some [x00]; transaction_message := Some [x41] |} in
  let s1 := snd (assemble (E := compact_size) (X := sample_imports)
                          true s) in
  snd (assemble (E := compact_size) (X := sample_imports) false s1) = s1.
Proof.
  intros s s1.
  refine (proj1 (proj2 (assemble_idempotent (E := compact_size)
                          (X := sample_imports) true s s1 _ _)) false).
  reflexivity.
Defined.

(** X2. [assemble] empties the cache: whatever the cache held before
    (also a value that belongs to another buffer), the next [hash] is
    the reversed double digest of the buffer just assembled.  Until
    then the cache rules: replacing the inputs of an object does not
    change what [hash] returns. *)
Theorem assemble_refreshes_hash {E : BitcoinEncoding} {X : Imported}
    (split : bool) (s s1 : Transaction) (res : assembled) :
  assemble split s = (Ok res, s1) ->
  (exists data,
     _raw s1 = Some data
     /\ fst (hash s1) = Ok (rev (sha256 (sha256 data)))
     /\ hash_coherent (snd (hash s1)) = true)
  /\ (forall (l : list Input) (o : list Output),
        fst (hash (set_outputs o (set_inputs l s))) = fst (hash s)).
Proof.
  intros H. destruct (assemble_state _ _ _ _ H) as (data & sp & Hd & -> & _).
  split.
  - exists data. split; [reflexivity|]. rewrite hash_unfold. cbn.
    split; [reflexivity|]. unfold hash_coherent. cbn.
    now apply bytes_eqb_eq.
  - intros l o. rewrite !hash_unfold. cbn [_hash _raw set_outputs set_inputs].
    destruct (_hash s); [reflexivity|]. now destruct (_raw s).
Qed.

Lemma assemble_refreshes_hash_witness :
  let s := {| _raw := Some [x09]; inputs := []; outputs := [];
              locktime := 0; n_time := None; fees := None;
              version := Some 1; _hash := Some [x00; x01];
              transaction_message := None |} in
  exists data,
    _raw (snd (assemble (E := compact_size) (X := sample_imports)
                        false s)) = Some data
    /\ fst (hash (X := sample_imports)
                 (snd (assemble (E := compact_size) (X := sample_imports)
                                false s)))
       = Ok (rev (@sha256 sample_imports (@sha256 sample_imports data))).
Proof.
  intros s.
  destruct (assemble_refreshes_hash (E := compact_size)
              (X := sample_imports) false s _ _ eq_refl)
    as [(data & Hr & Hh & _) _].
  exists data. split; [exact Hr|exact Hh].
Defined.

(** X3. On a well-formed object without buffer the accessor [raw]
    assembles: it returns the buffer that [assemble()] returns and
    stores it; a second read returns the same buffer and changes
    nothing; [hash] then returns the reversed double digest of that
    buffer. *)
Theorem raw_assembles_once {E : BitcoinEncoding} {X : Imported}
    (s : Transaction) :
  well_formed s = true ->
  _raw s = None ->
  exists data s1,
    raw s = (Ok (Some data), s1)
    /\ assemble false s = (Ok (Whole data), s1)
    /\ raw s1 = (Ok (Some data), s1)
    /\ fst (hash s1) = Ok (rev (sha256 (sha256 data))).
Proof.
  intros Hw Hr. destruct (assemble_ok false s Hw) as (data & sp & _ & Ha).
  exists data, (set_hash None (set_raw (Some data) (default_version s))).
  assert (Hraw1 : raw s
                  = (Ok (Some data),
                     set_hash None
                       (set_raw (Some data) (default_version s)))).
  { unfold raw. rewrite bind_get, Hr.
    unfold bind at 1. unfold bind at 1. rewrite Ha. reflexivity. }
  split; [exact Hraw1|]. split; [exact Ha|]. split.
  - reflexivity.
  - rewrite hash_unfold. reflexivity.
Qed.

Lemma raw_assembles_once_witness :
  let s := {| _raw := None; inputs := [];
              outputs := [{| amount := 1; script_pub_key := [x51] |}];
              locktime := 0; n_time := None; fees := None;
              version := None; _hash := None;
              transaction_message := None |} in
  exists data s1,
    raw (E := compact_size) (X := sample_imports) s = (Ok (Some data), s1)
    /\ assemble (E := compact_size) (X := sample_imports) false s
       = (Ok (Whole data), s1).
Proof.
  intros s.
  destruct (raw_assembles_once (E := compact_size) (X := sample_imports)
              s eq_refl eq_refl) as (data & s1 & H1 & H2 & _).
  exists data, s1. split; assumption.
Defined.

(** ** When [assemble] raises *)

Lemma is_ok_pack (f : fmt) (v : Z) : is_ok (pack f v) = in_range f v.
Proof. unfold pack. now destruct (in_range f v). Qed.

Lemma default_version_frame (s : Transaction) :
  _raw (default_version s) = _raw s
  /\ _hash (default_version s) = _hash s
  /\ inputs (default_version s) = inputs s
  /\ outputs (default_version s) = outputs s
  /\ locktime (default_version s) = locktime s
  /\ n_time (default_version s) = n_time s
  /\ fees (default_version s) = fees s
  /\ transaction_message (default_version s) = transaction_message s.
Proof.
  unfold default_version. destruct (version s); [tauto|].
  destruct (transaction_message s) eqn:Hm; cbn; rewrite ?Hm; tauto.
Qed.

Section Packing.

Context {E : BitcoinEncoding} {X : Imported}.

Lemma assemble_inputs_is_ok (ins : list Input) (data : bytes)
    (sp : option nat) :
  is_ok (assemble_inputs ins data sp) = forallb packable_input ins.
Proof.
  revert data sp. induction ins as [|i ins IH]; intros data sp;
    [reflexivity|].
  cbn [assemble_inputs forallb]. unfold packable_input, encodable.
  rewrite <- !is_ok_pack.
  destruct (pack fmt_L (prevout_idx i)) as [idx|]; [|reflexivity].
  cbn [bindR is_ok andb].
  destruct (varlen_encode _) as [len|]; [|reflexivity].
  cbn [bindR is_ok andb].
  destruct (pack fmt_L (seqno i)) as [sq|]; [|reflexivity].
  cbn [bindR is_ok andb]. apply IH.
Qed.

Lemma assemble_outputs_is_ok (outs : list Output) (data : bytes) :
  is_ok (assemble_outputs outs data) = forallb valid_output outs.
Proof.
  revert data. induction outs as [|o outs IH]; intros data;
    [reflexivity|].
  cbn [assemble_outputs forallb]. unfold valid_output, encodable.
  rewrite <- !is_ok_pack.
  destruct (pack fmt_Q (amount o)) as [amt|]; [|reflexivity].
  cbn [bindR is_ok andb].
  destruct (varlen_encode _) as [len|]; [|reflexivity].
  cbn [bindR is_ok andb]. apply IH.
Qed.

Lemma assemble_data_is_ok (s : Transaction) :
  is_ok (assemble_data s) = packable s.
Proof.
  unfold assemble_data, assemble_header, assemble_rest, packable, encodable.
  destruct (version s) as [v|]; [|reflexivity].
  rewrite <- !is_ok_pack.
  destruct (pack fmt_L v) as [ver|]; [|reflexivity].
  cbn [bindR is_ok andb].
  destruct (n_time s) as [t|]; cbn [in_range_opt bindR].
  1: rewrite <- is_ok_pack; destruct (pack fmt_i t) as [nt|];
       cbn [bindR is_ok andb]; [|reflexivity].
  all: destruct (varlen_encode (N.of_nat (List.length (inputs s))))
         as [cnt|]; cbn [bindR is_ok andb]; [|reflexivity].
  all: match goal with
       | |- context [assemble_inputs ?a ?b ?c] =>
           pose proof (assemble_inputs_is_ok a b c) as Hi;
           destruct (assemble_inputs a b c) as [[d1 sp]|];
           cbn [is_ok] in Hi; rewrite <- Hi;
           cbn [bindR is_ok andb]; [|reflexivity]
       end.
  all: destruct (varlen_encode (N.of_nat (List.length (outputs s))))
         as [co|]; cbn [bindR is_ok andb]; [|reflexivity].
  all: match goal with
       | |- context [assemble_outputs ?a ?b] =>
           pose proof (assemble_outputs_is_ok a b) as Ho;
           destruct (assemble_outputs a b) as [d2|];
           cbn [is_ok] in Ho; rewrite <- Ho;
           cbn [bindR is_ok andb]; [|reflexivity]
       end.
  all: destruct (pack fmt_L (locktime s)) as [lt|]; [|reflexivity].
  all: cbn [bindR]; now destruct (transaction_message s).
Qed.

End Packing.

(** X4. [assemble] returns exactly when every value it packs fits: the
    (defaulted) version, the time stamp if there is one, the lock time,
    the index and sequence number of each input and the amount of each
    output fit their widths, and the counts and script lengths can be
    written as variable-length integers.  The length of a
    [prevout_hash] is never looked at.  When [assemble] raises, the
    stored buffer, the cache, inputs, outputs and lock time are as
    before; only the version default may have been set. *)
Theorem assemble_raises_iff {E : BitcoinEncoding} {X : Imported}
    (split : bool) (s : Transaction) :
  is_ok (fst (assemble split s)) = packable (default_version s)
  /\ (forall (h : bytes) (i : Input) (pre post : list Input),
        inputs s = pre ++ i :: post ->
        is_ok (fst (assemble split
                      (set_inputs
                         (pre ++ {| prevout_hash := h;
                                    prevout_idx := prevout_idx i;
                                    script_sig := script_sig i;
                                    seqno := seqno i |} :: post) s)))
        = is_ok (fst (assemble split s)))
  /\ (forall (e : exn) (s' : Transaction),
        assemble split s = (Raise e, s') ->
        s' = default_version s
        /\ _raw s' = _raw s /\ _hash s' = _hash s
        /\ inputs s' = inputs s /\ outputs s' = outputs s
        /\ locktime s' = locktime s).
Proof.
  assert (Hok : forall s0, is_ok (fst (assemble split s0))
                           = packable (default_version s0)).
  { intros s0. rewrite assemble_unfold, <- assemble_data_is_ok.
    now destruct (assemble_data (default_version s0)) as [[d sp]|]. }
  split; [apply Hok|]. split.
  - intros h i pre post Hin. rewrite !Hok.
    unfold packable.
    destruct (default_version_frame s)
      as (_ & _ & Hi & Ho & Hl & Hn & _ & _).
    destruct (default_version_frame
                (set_inputs (pre ++ {| prevout_hash := h;
                                       prevout_idx := prevout_idx i;
                                       script_sig := script_sig i;
                                       seqno := seqno i |} :: post) s))
      as (_ & _ & Hi' & Ho' & Hl' & Hn' & _ & _).
    rewrite Hi, Ho, Hl, Hn, Hi', Ho', Hl', Hn'.
    cbn [inputs outputs locktime n_time set_inputs].
    rewrite Hin, !length_app, !forallb_app. cbn [List.length forallb].
    replace (version (default_version
                        (set_inputs (pre ++ {| prevout_hash := h;
                                       prevout_idx := prevout_idx i;
                                       script_sig := script_sig i;
                                       seqno := seqno i |} :: post) s)))
      with (version (default_version s)); [reflexivity|].
    unfold default_version. cbn [version transaction_message set_inputs].
    destruct (version s); [reflexivity|].
    now destruct (transaction_message s).
  - intros e s'. rewrite assemble_unfold.
    destruct (assemble_data (default_version s)) as [[d sp]|];
      [discriminate|].
    intros [= _ <-].
    destruct (default_version_frame s)
      as (Hr & Hh & Hi & Ho & Hl & _).
    auto 10.
Qed.

(** ** Different transactions, different buffers *)

(** X5. Two well-formed transactions without time stamp and message
    that assemble to the same buffer have the same inputs, outputs and
    lock time, and the same version once the default is applied. *)
Theorem assemble_injective {E : BitcoinEncoding} {X : Imported}
    (s s' : Transaction) (data : bytes) :
  well_formed s = true ->
  well_formed s' = true ->
  n_time s = None -> transaction_message s = None ->
  n_time s' = None -> transaction_message s' = None ->
  fst (assemble false s) = Ok (Whole data) ->
  fst (assemble false s') = Ok (Whole data) ->
  inputs s = inputs s'
  /\ outputs s = outputs s'
  /\ locktime s = locktime s'
  /\ version (snd (assemble false s)) = version (snd (assemble false s')).
Proof.
  intros Hw Hw' Hn Hm Hn' Hm' Ha Ha'.
  assert (Hkey : forall u : Transaction,
             well_formed u = true -> n_time u = None ->
             transaction_message u = None ->
             fst (assemble false u) = Ok (Whole data) ->
             forall a : Transaction,
             exists s2,
               (d <- disassemble_fields data ;;
                disassemble_locktime false d) a = (Ok tt, s2)
               /\ inputs s2 = inputs u /\ outputs s2 = outputs u
               /\ locktime s2 = locktime u
               /\ version s2 = version (snd (assemble false u))).
  { intros u Hwu Hnu Hmu Hau a.
    destruct (assemble false u) as [[res|e] u1] eqn:Hrun;
      cbn [fst] in Hau; [|discriminate].
    injection Hau as ->.
    destruct (assemble_state _ _ _ _ Hrun) as (d & sp & Hd & -> & Hres).
    injection Hres as <-.
    destruct (default_version_frame u)
      as (_ & _ & Hi & Ho & Hl & Hnt & _ & Hmsg).
    assert (Hvi : forallb valid_input (inputs (default_version u)) = true).
    { rewrite Hi. unfold well_formed in Hwu.
      repeat (apply andb_true_iff in Hwu as [Hwu _]). exact Hwu. }
    rewrite <- Hnt in Hnu. rewrite <- Hmsg in Hmu.
    destruct (parse_assembled _ _ _ Hvi Hnu Hmu Hd) as [_ Hp].
    destruct (Hp false a) as (s2 & Hs2 & Hi2 & Ho2 & Hl2 & Hv2).
    exists s2. split; [exact Hs2|]. cbn [snd version set_hash set_raw].
    repeat split; congruence. }
  destruct (Hkey s Hw Hn Hm Ha s) as (s2 & Hr & Hi & Ho & Hl & Hv).
  destruct (Hkey s' Hw' Hn' Hm' Ha' s) as (s2' & Hr' & Hi' & Ho' & Hl' & Hv').
  rewrite Hr in Hr'. injection Hr' as <-.
  repeat split; congruence.
Qed.

Lemma assemble_injective_witness :
  let s := {| _raw := None; inputs := []; outputs := []; locktime := 3;
              n_time := None; fees := None; version := None;
              _hash := None; transaction_message := None |} in
  let s' := {| _raw := Some [x00]; inputs := []; outputs := [];
               locktime := 3; n_time := None; fees := Some 9;
               version := Some 1; _hash := None;
               transaction_message := None |} in
  version (snd (assemble (E := compact_size) (X := sample_imports)
                         false s))
  = version (snd (assemble (E := compact_size) (X := sample_imports)
                           false s')).
Proof.
  intros s s'.
  refine (proj2 (proj2 (proj2
            (assemble_injective (E := compact_size) (X := sample_imports)
               s s' _ eq_refl eq_refl eq_refl eq_refl eq_refl eq_refl
               _ _)))); reflexivity.
Defined.

(** ** What a successful parse leaves in the object *)

Lemma funpack_unsigned_range (f : fmt) (b : bytes) (v : Z) :
  signed f = false -> funpack f b = Ok v -> in_range f v = true.
Proof.
  unfold funpack, unpack, in_range, lo, hi, modulus. intros Hs.
  rewrite Hs. cbn [andb].
  destruct (Nat.eqb_spec (List.length b) (width f)) as [Hl|];
    [|discriminate].
  intros [= <-]. pose proof (le_value_bound b) as Hb. rewrite Hl in Hb.
  apply andb_true_iff. split; [apply Z.leb_le|apply Z.ltb_lt]; lia.
Qed.

Section ParsedFields.

Context {E : BitcoinEncoding}.

(** Whatever [varlen_decode] returns can be written by
    [varlen_encode]. *)
Hypothesis decoded_encodable :
  forall (d r : bytes) (n : N),
    varlen_decode d = Ok (n, r) -> is_ok (varlen_encode n) = true.

Lemma disassemble_inputs_valid (n : nat) (data rest : bytes)
    (s s' : Transaction) :
  disassemble_inputs n data s = (Ok rest, s') ->
  exists l,
    s' = set_inputs (inputs s ++ l) s
    /\ List.length l = n
    /\ forallb valid_input l = true.
Proof.
  revert data s. induction n as [|n IH]; intros data s.
  - cbn. intros [= _ <-]. exists [].
    now rewrite app_nil_r, set_inputs_same.
  - cbn [disassemble_inputs]. rewrite bind_lift.
    destruct (funpack fmt_L (slice 32 36 data)) as [idx|] eqn:Hidx;
      [|discriminate].
    rewrite bind_lift.
    destruct (varlen_decode (from 36 data)) as [[ss d2]|] eqn:Hdec;
      [|discriminate].
    rewrite bind_lift.
    destruct (funpack fmt_L (slice (N.to_nat ss) (N.to_nat ss + 4) d2))
      as [sq|] eqn:Hsq; [|discriminate].
    rewrite bind_modify. intros Hrec.
    destruct (IH _ _ Hrec) as (l & -> & Hlen & Hval).
    eexists (_ :: l). split; [|split].
    + cbn [inputs set_inputs]. rewrite <- app_assoc. reflexivity.
    + cbn [List.length]. now rewrite Hlen.
    + cbn [forallb]. rewrite Hval, andb_true_r.
      unfold valid_input. cbn [prevout_hash prevout_idx script_sig seqno].
      pose proof (funpack_slice _ _ _ _ _ Hidx eq_refl ltac:(lia)) as L1.
      pose proof (funpack_slice _ _ _ _ _ Hsq ltac:(cbn; lia) ltac:(lia))
        as L2.
      rewrite (funpack_unsigned_range fmt_L _ _ eq_refl Hidx).
      rewrite (funpack_unsigned_range fmt_L _ _ eq_refl Hsq).
      unfold upto. rewrite !length_firstn.
      replace (Nat.min 32 (List.length data)) with 32%nat by lia.
      replace (Nat.min (N.to_nat ss) (List.length d2))
        with (N.to_nat ss) by lia.
      unfold encodable. rewrite N2Nat.id.
      now rewrite (decoded_encodable _ _ _ Hdec).
Qed.

Lemma disassemble_outputs_valid (n : nat) (data rest : bytes)
    (s s' : Transaction) :
  disassemble_outputs n data s = (Ok rest, s') ->
  rest <> [] ->
  exists l,
    s' = set_outputs (outputs s ++ l) s
    /\ List.length l = n
    /\ forallb valid_output l = true.
Proof.
  revert data s. induction n as [|n IH]; intros data s.
  - cbn. intros [= _ <-] _. exists [].
    now rewrite app_nil_r, set_outputs_same.
  - cbn [disassemble_outputs]. rewrite bind_lift.
    destruct (funpack fmt_Q (upto 8 data)) as [amt|] eqn:Hamt;
      [|discriminate].
    rewrite bind_lift.
    destruct (varlen_decode (from 8 data)) as [[ps d2]|] eqn:Hdec;
      [|discriminate].
    rewrite bind_modify. intros Hrec Hne.
    destruct (le_lt_dec (N.to_nat ps) (List.length d2)) as [Hps|Hps].
    2: { unfold from in Hrec. rewrite skipn_all2 in Hrec by lia.
         apply disassemble_outputs_nil in Hrec. contradiction. }
    destruct (IH _ _ Hrec Hne) as (l & -> & Hlen & Hval).
    eexists (_ :: l). split; [|split].
    + cbn [outputs set_outputs]. rewrite <- app_assoc. reflexivity.
    + cbn [List.length]. now rewrite Hlen.
    + cbn [forallb]. rewrite Hval, andb_true_r.
      unfold valid_output. cbn [amount script_pub_key].
      rewrite (funpack_unsigned_range fmt_Q _ _ eq_refl Hamt).
      unfold upto. rewrite length_firstn.
      replace (Nat.min (N.to_nat ps) (List.length d2))
        with (N.to_nat ps) by lia.
      unfold encodable. rewrite N2Nat.id.
      now rewrite (decoded_encodable _ _ _ Hdec).
Qed.

Lemma disassemble_fields_valid (data rest : bytes) (s s' : Transaction) :
  disassemble_fields data s = (Ok rest, s') ->
  rest <> [] ->
  exists v ins outs,
    s' = set_outputs outs (set_inputs ins (set_version (Some v) s))
    /\ in_range fmt_L v = true
    /\ forallb valid_input ins = true
    /\ forallb valid_output outs = true
    /\ encodable (List.length ins) = true
    /\ encodable (List.length outs) = true.
Proof.
  unfold disassemble_fields. rewrite bind_lift.
  destruct (funpack fmt_L (upto 4 data)) as [v|] eqn:Hv; [|discriminate].
  rewrite bind_modify, bind_lift.
  destruct (varlen_decode (from 4 data)) as [[ic d1]|] eqn:Hic;
    [|discriminate].
  rewrite bind_modify.
  destruct (disassemble_inputs (N.to_nat ic) d1
              (set_inputs [] (set_version (Some v) s)))
    as [[d2|e] s3] eqn:Hin.
  2: { unfold bind at 1. rewrite Hin. discriminate. }
  rewrite (bind_run _ _ _ _ _ Hin), bind_lift.
  destruct (varlen_decode d2) as [[oc d3]|] eqn:Hoc; [|discriminate].
  rewrite bind_modify. intros Hout Hne.
  destruct (disassemble_inputs_valid _ _ _ _ _ Hin) as (ins & -> & Li & Vi).
  destruct (disassemble_outputs_valid _ _ _ _ _ Hout Hne)
    as (outs & -> & Lo & Vo).
  exists v, ins, outs. split; [reflexivity|].
  split; [exact (funpack_unsigned_range fmt_L _ _ eq_refl Hv)|].
  split; [exact Vi|]. split; [exact Vo|].
  unfold encodable. rewrite Li, Lo, !N2Nat.id.
  split; eapply decoded_encodable; eauto.
Qed.

End ParsedFields.

(** X6. Assume that every value the variable-length decoder returns can
    be encoded again (true of the reference layout, where values are
    below 2^64), and let [disassemble] return on an object.  Everything
    it parsed is well formed: 32-byte hashes, numbers within their
    widths.  The one attribute of [well_formed] that parsing does not
    set is [n_time]: the object is well formed, and [assemble] on it
    returns, exactly when [n_time] is unset or a signed 32-bit value.
    That is so for every object the constructor builds with
    [disassemble=True], which therefore always assembles. *)
Theorem parsed_is_well_formed {E : BitcoinEncoding} {X : Imported}
    (raw : option bytes) (dump : bool) (fees : option Z)
    (s s' : Transaction) :
  (forall (d r : bytes) (n : N),
     varlen_decode d = Ok (n, r) -> is_ok (varlen_encode n) = true) ->
  disassemble raw dump fees s = (Ok tt, s') ->
  forallb valid_input (inputs s') = true
  /\ forallb valid_output (outputs s') = true
  /\ in_range fmt_L (locktime s') = true
  /\ in_range_opt fmt_L (version s') = true
  /\ n_time s' = n_time s
  /\ well_formed s' = in_range_opt fmt_i (n_time s)
  /\ (forall split : bool,
        is_ok (fst (assemble split s')) = in_range_opt fmt_i (n_time s))
  /\ (forall (arg : pyarg) (f : option Z) (pos msgs : bool)
             (t : Transaction),
        __init__ arg f true pos msgs = Ok t ->
        well_formed t = true
        /\ forall split : bool, is_ok (fst (assemble split t)) = true).
Proof.
  intros Henc.
  assert (Hparts : forall raw0 dump0 fees0 (u u' : Transaction),
             disassemble raw0 dump0 fees0 u = (Ok tt, u') ->
             forallb valid_input (inputs u') = true
             /\ forallb valid_output (outputs u') = true
             /\ in_range fmt_L (locktime u') = true
             /\ in_range_opt fmt_L (version u') = true
             /\ n_time u' = n_time u
             /\ encodable (List.length (inputs u')) = true
             /\ encodable (List.length (outputs u')) = true).
  { intros raw0 dump0 fees0 u u' Hrun.
    rewrite disassemble_unfold in Hrun. cbn zeta in Hrun.
    remember (if truthy_bytes raw0
              then set_raw raw0
                     (if truthy_int fees0 then set_fees fees0 u else u)
              else if truthy_int fees0 then set_fees fees0 u else u)
      as s1 eqn:Hs1.
    assert (Hn1 : n_time s1 = n_time u)
      by (subst s1; destruct (truthy_int fees0), (truthy_bytes raw0);
          reflexivity).
    clear Hs1.
    destruct (_raw s1) as [data|]; [|discriminate].
    destruct (disassemble_fields data s1) as [[rest|e] s3] eqn:Hf.
    2: { unfold bind in Hrun. rewrite Hf in Hrun. discriminate. }
    rewrite (bind_run _ _ _ _ _ Hf) in Hrun.
    pose proof (disassemble_locktime_result dump0 rest s3) as Hres.
    rewrite Hrun in Hres. cbn [fst] in Hres.
    destruct (Nat.compare_spec (List.length rest) 4) as [Hc|Hc|Hc];
      try discriminate.
    assert (Hne : rest <> []) by (destruct rest; [discriminate|easy]).
    destruct (disassemble_fields_valid Henc _ _ _ _ Hf Hne)
      as (v & ins & outs & -> & Rv & Vi & Vo & Ei & Eo).
    unfold disassemble_locktime in Hrun. rewrite bind_lift in Hrun.
    destruct (funpack fmt_L (upto 4 rest)) as [l|] eqn:Hl; [|discriminate].
    rewrite !bind_modify in Hrun.
    destruct (List.length rest =? 4)%nat; [|discriminate].
    rewrite bind_ret in Hrun.
    pose proof (funpack_unsigned_range fmt_L _ _ eq_refl Hl) as Rl.
    destruct dump0; cbn in Hrun; injection Hrun as <-;
      cbn [inputs outputs locktime version n_time set_raw set_hash
           set_locktime set_outputs set_inputs set_version in_range_opt];
      auto 10. }
  assert (Hwf : forall raw0 dump0 fees0 (u u' : Transaction),
             disassemble raw0 dump0 fees0 u = (Ok tt, u') ->
             well_formed u' = in_range_opt fmt_i (n_time u)
             /\ forall split : bool,
                  is_ok (fst (assemble split u'))
                  = in_range_opt fmt_i (n_time u)).
  { intros raw0 dump0 fees0 u u' Hrun.
    destruct (Hparts _ _ _ _ _ Hrun) as (Vi & Vo & Rl & Rv & Hn & Ei & Eo).
    assert (Hw : well_formed u' = in_range_opt fmt_i (n_time u)).
    { unfold well_formed. rewrite Vi, Vo, Rl, Rv, Ei, Eo, Hn.
      cbn [andb]. now rewrite !andb_true_r. }
    split; [exact Hw|]. intros split.
    destruct (in_range_opt fmt_i (n_time u)) eqn:Hnt.
    - destruct (assemble_ok split u' Hw) as (d & sp & _ & ->).
      reflexivity.
    - rewrite assemble_unfold.
      pose proof (assemble_data_is_ok (default_version u')) as Hp.
      destruct (default_version_frame u')
        as (_ & _ & _ & _ & _ & Hn' & _ & _).
      unfold packable in Hp. rewrite Hn', Hn, Hnt in Hp.
      rewrite andb_false_r in Hp. cbn [andb] in Hp.
      now destruct (assemble_data (default_version u')) as [[d sp]|]. }
  intros Hrun.
  destruct (Hparts _ _ _ _ _ Hrun) as (Vi & Vo & Rl & Rv & Hn & _ & _).
  destruct (Hwf _ _ _ _ _ Hrun) as (Hw & Ha).
  split; [exact Vi|]. split; [exact Vo|]. split; [exact Rl|].
  split; [exact Rv|]. split; [exact Hn|]. split; [exact Hw|].
  split; [exact Ha|].
  intros arg f pos msgs t. unfold __init__.
  destruct (if truthy arg then _ else _) as [r|]; [|discriminate].
  cbn [bindR].
  match goal with
  | |- context [disassemble None false None ?s0] =>
      destruct (disassemble None false None s0) as [[[]|e] t'] eqn:Hd;
      [|discriminate];
      destruct (Hwf _ _ _ _ _ Hd) as (Hwt & Hat)
  end.
  intros [= <-]. cbn [n_time] in Hwt, Hat.
  assert (Hpos : in_range_opt fmt_i (if pos then Some 0 else None) = true)
    by now destruct pos.
  rewrite Hpos in Hwt, Hat. split; [exact Hwt|exact Hat].
Qed.

Lemma compact_encode_ok (n : N) :
  Z.of_N n < 2 ^ 64 -> is_ok (compact_encode n) = true.
Proof.
  intros Hn. unfold compact_encode.
  assert (H0 : 0 <= Z.of_N n) by lia.
  destruct (Z.ltb_spec (Z.of_N n) 0xfd);
    [|destruct (Z.leb_spec (Z.of_N n) 0xffff);
      [|destruct (Z.leb_spec (Z.of_N n) 0xffffffff)]];
    rewrite pack_in_range; try reflexivity;
    unfold in_range; apply andb_true_iff;
    (split; [apply Z.leb_le|apply Z.ltb_lt]).
  - change (lo fmt_B) with 0. lia.
  - change (hi fmt_B) with 256. lia.
  - change (lo fmt_H) with 0. lia.
  - change (hi fmt_H) with 65536. lia.
  - change (lo fmt_L) with 0. lia.
  - change (hi fmt_L) with 4294967296. lia.
  - change (lo fmt_Q) with 0. lia.
  - change (hi fmt_Q) with (2 ^ 64). lia.
Qed.

Lemma compact_decoded_encodable (d r : bytes) (n : N) :
  compact_decode d = Ok (n, r) -> is_ok (compact_encode n) = true.
Proof.
  intros H. apply compact_encode_ok.
  destruct d as [|b0 d0]; [discriminate|].
  rewrite compact_decode_cons in H.
  assert (Hq : forall f b v, signed f = false -> (width f <= 8)%nat ->
               funpack f b = Ok v -> Z.of_N (Z.to_N v) < 2 ^ 64).
  { intros f b v Hs Hwd Hf. pose proof (unpack_length _ _ _ Hf) as Hl.
    unfold funpack, unpack in Hf. rewrite Hl, Nat.eqb_refl, Hs in Hf.
    cbn [andb] in Hf. injection Hf as <-.
    pose proof (le_value_bound b) as Hb. rewrite Z2N.id by lia.
    apply Z.lt_le_trans with (1 := proj2 Hb).
    apply Z.pow_le_mono_r; lia. }
  destruct (Byte.eqb b0 xff);
    [|destruct (Byte.eqb b0 xfe); [|destruct (Byte.eqb b0 xfd)]].
  4: { injection H as <- _. pose proof (Byte.to_N_bounded b0). lia. }
  all: match type of H with
       | context [funpack ?f ?b] =>
           destruct (funpack f b) as [v|] eqn:Hf; [|discriminate];
           cbn [bindR] in H; injection H as <- _;
           apply (Hq f b v eq_refl); [cbn; lia|exact Hf]
       end.
Qed.

Lemma parsed_is_well_formed_witness :
  exists s',
    disassemble (E := compact_size) (Some scenario_buffer) true None
      {| _raw := None; inputs := []; outputs := []; locktime := 0;
         n_time := None; fees := None; version := None; _hash := None;
         transaction_message := None |} = (Ok tt, s')
    /\ well_formed (E := compact_size) s' = true.
Proof.
  eexists. split; [reflexivity|].
  refine (eq_trans
            (proj1 (proj2 (proj2 (proj2 (proj2 (proj2
               (parsed_is_well_formed (E := compact_size)
                  (X := sample_imports) (Some scenario_buffer) true None
                  {| _raw := None; inputs := []; outputs := [];
                     locktime := 0; n_time := None; fees := None;
                     version := None; _hash := None;
                     transaction_message := None |}
                  _ compact_decoded_encodable eq_refl)))))))
            eq_refl).
Defined.

(** ** [to_dict] and [__hash__] *)

Section Exports.

Context {X : Imported}.

Lemma lehexhash_run (s : Transaction) (d : bytes) :
  _raw s = Some d ->
  hash_coherent s = true ->
  lehexhash s = (Ok (hexlify (rev (sha256 (sha256 d)))), snd (hash s)).
Proof.
  intros Hr Hc. destruct (hash_value s d Hr Hc) as (Hv & _ & _).
  unfold lehexhash, bind.
  destruct (hash s) as [[h|e] s'] eqn:Hh; cbn [fst] in Hv; [|discriminate].
  injection Hv as ->. reflexivity.
Qed.

End Exports.

(** X7. [to_dict] needs the stored buffer: without one it raises
    [TypeError] and changes nothing, however complete the structured
    fields are.  With a buffer (and a coherent cache) it returns one
    entry per input and per output, in order, with hashes and scripts
    in hexadecimal, the buffer in hexadecimal under [data], and under
    [hash] the hexadecimal form of [hash]; the only change to the
    object is the cached hash. *)
Theorem to_dict_needs_raw {X : Imported} (s : Transaction) :
  (_raw s = None -> to_dict s = (Raise TypeError, s))
  /\ (forall d : bytes,
        _raw s = Some d ->
        hash_coherent s = true ->
        exists r,
          to_dict s = (Ok r, snd (hash s))
          /\ Dict.data r = hexlify d
          /\ Dict.hash r = hexlify (rev (sha256 (sha256 d)))
          /\ Dict.locktime r = locktime s
          /\ Dict.version r = version s
          /\ map Dict.prevout_hash (Dict.inputs r)
             = map (fun i => hexlify (prevout_hash i)) (inputs s)
          /\ map Dict.prevout_idx (Dict.inputs r)
             = map prevout_idx (inputs s)
          /\ map Dict.script_sig (Dict.inputs r)
             = map (fun i => hexlify (script_sig i)) (inputs s)
          /\ map Dict.seqno (Dict.inputs r) = map seqno (inputs s)
          /\ map Dict.amount (Dict.outputs r) = map amount (outputs s)
          /\ map Dict.script_pub_key (Dict.outputs r)
             = map (fun o => hexlify (script_pub_key o)) (outputs s)).
Proof.
  split.
  - intros Hr. unfold to_dict. rewrite bind_get, Hr. reflexivity.
  - intros d Hr Hc. unfold to_dict. rewrite bind_get, Hr, bind_ret.
    unfold bind. rewrite (lehexhash_run s d Hr Hc).
    eexists. split; [reflexivity|]. cbn.
    rewrite !map_map. repeat split.
Qed.

Lemma to_dict_needs_raw_witness :
  let s := {| _raw := Some [x01; x02];
              inputs := [{| prevout_hash := [xab]; prevout_idx := 3;
                            script_sig := [x51]; seqno := 0 |}];
              outputs := []; locktime := 9; n_time := None; fees := None;
              version := Some 1; _hash := None;
              transaction_message := None |} in
  exists r,
    to_dict (X := sample_imports) s
    = (Ok r, snd (hash (X := sample_imports) s))
    /\ Dict.data r = hexlify [x01; x02].
Proof.
  intros s.
  destruct (proj2 (to_dict_needs_raw (X := sample_imports) s)
              [x01; x02] eq_refl eq_refl) as (r & Hrun & Hd & _).
  exists r. split; assumption.
Defined.




(** ** What [disassemble] changes, and what it leaves alone *)

Section Leaving.

Context {E : BitcoinEncoding}.

Lemma disassemble_fields_shape (data : bytes) (s : Transaction) :
  exists (v : option Z) (ins : list Input) (outs : list Output),
    snd (disassemble_fields data s)
    = set_outputs outs (set_inputs ins (set_version v s)).
Proof.
  assert (Hsame : forall v ins,
             exists (v' : option Z) (ins' : list Input)
                    (outs : list Output),
               set_inputs ins (set_version v s)
               = set_outputs outs (set_inputs ins' (set_version v' s))).
  { intros v ins. exists v, ins, (outputs s). reflexivity. }
  unfold disassemble_fields. rewrite bind_lift.
  destruct (funpack fmt_L (upto 4 data)) as [v|].
  2: { exists (version s), (inputs s), (outputs s). now destruct s. }
  rewrite bind_modify, bind_lift.
  destruct (varlen_decode (from 4 data)) as [[ic d]|].
  2: { exists (Some v), (inputs s), (outputs s). reflexivity. }
  rewrite bind_modify. unfold bind at 1.
  match goal with
  | |- context [disassemble_inputs ?n ?d ?s] =>
      destruct (disassemble_inputs_frame n d s) as [l Hl];
      destruct (disassemble_inputs n d s) as [[d1|e] s1]
  end; cbn [snd] in Hl; subst s1; [|apply Hsame].
  rewrite bind_lift.
  destruct (varlen_decode d1) as [[oc d2]|]; [|apply Hsame].
  rewrite bind_modify.
  match goal with
  | |- context [disassemble_outputs ?n ?d ?s] =>
      destruct (disassemble_outputs_frame n d s) as [l' Hl'];
      rewrite Hl'
  end.
  exists (Some v), l, l'. reflexivity.
Qed.

Lemma disassemble_fields_frame (data : bytes) (s : Transaction) :
  let s' := snd (disassemble_fields data s) in
  _raw s' = _raw s /\ _hash s' = _hash s /\ fees s' = fees s
  /\ n_time s' = n_time s
  /\ transaction_message s' = transaction_message s
  /\ locktime s' = locktime s.
Proof.
  cbn zeta.
  destruct (disassemble_fields_shape data s) as (v & ins & outs & ->).
  cbn. repeat (split; [reflexivity|]). reflexivity.
Qed.

(** The outcomes of [disassemble], with the state each one leaves: no
    buffer; a failure while reading version, inputs and outputs; a
    failure reading the lock time; trailing data; success. *)
Lemma disassemble_cases (raw : option bytes) (dump : bool)
    (f : option Z) (s : Transaction) :
  let s0 := if truthy_int f then set_fees f s else s in
  let s1 := if truthy_bytes raw then set_raw raw s0 else s0 in
  match _raw s1 with
  | None => disassemble raw dump f s = (Raise TypeError, s1)
  | Some data =>
      match disassemble_fields data s1 with
      | (Raise e, s2) => disassemble raw dump f s = (Raise e, s2)
      | (Ok rest, s2) =>
          match funpack fmt_L (upto 4 rest) with
          | Raise e => disassemble raw dump f s = (Raise e, s2)
          | Ok l =>
              let s3 := set_hash None (set_locktime l s2) in
              if (List.length rest =? 4)%nat
              then disassemble raw dump f s
                   = (Ok tt, if dump then set_raw None s3 else s3)
              else disassemble raw dump f s = (Raise AssertionError, s3)
          end
      end
  end.
Proof.
  cbn zeta. rewrite disassemble_unfold. cbn zeta.
  generalize (if truthy_bytes raw
              then set_raw raw (if truthy_int f then set_fees f s else s)
              else if truthy_int f then set_fees f s else s).
  intros s1.
  destruct (_raw s1) as [data|]; [|reflexivity].
  destruct (disassemble_fields data s1) as [[rest|e] s2] eqn:Hf.
  2: { unfold bind. now rewrite Hf. }
  rewrite (bind_run _ _ _ _ _ Hf).
  unfold disassemble_locktime. rewrite bind_lift.
  destruct (funpack fmt_L (upto 4 rest)) as [l|]; [|reflexivity].
  rewrite !bind_modify.
  destruct (List.length rest =? 4)%nat; [|reflexivity].
  rewrite bind_ret. now destruct dump.
Qed.

End Leaving.

(** X9. In every outcome, [disassemble] leaves [n_time] and
    [transaction_message] as they were, and [fees] holds the argument
    only if the argument is true in a condition: [fees=0] and
    [fees=None] keep the old value. *)
Theorem disassemble_keeps_options {E : BitcoinEncoding}
    (raw : option bytes) (dump : bool) (f : option Z) (s : Transaction) :
  let s' := snd (disassemble raw dump f s) in
  n_time s' = n_time s
  /\ transaction_message s' = transaction_message s
  /\ fees s' = (if truthy_int f then f else fees s)
  /\ fees (snd (disassemble raw dump (Some 0) s)) = fees s.
Proof.
  assert (H : forall f0,
             let s' := snd (disassemble raw dump f0 s) in
             n_time s' = n_time s
             /\ transaction_message s' = transaction_message s
             /\ fees s' = (if truthy_int f0 then f0 else fees s)).
  { intros f0. pose proof (disassemble_cases raw dump f0 s) as Hc.
    cbn zeta in Hc. cbn zeta.
    remember (if truthy_bytes raw
              then set_raw raw
                     (if truthy_int f0 then set_fees f0 s else s)
              else if truthy_int f0 then set_fees f0 s else s)
      as s1 eqn:Hs1.
    assert (H1 : n_time s1 = n_time s
                 /\ transaction_message s1 = transaction_message s
                 /\ fees s1 = (if truthy_int f0 then f0 else fees s))
      by (subst s1; destruct (truthy_int f0), (truthy_bytes raw);
          cbn; auto).
    clear Hs1. destruct H1 as (N1 & M1 & F1).
    destruct (_raw s1) as [data|]; [|rewrite Hc; cbn [snd]; auto].
    pose proof (disassemble_fields_frame data s1) as Hf. cbn zeta in Hf.
    destruct (disassemble_fields data s1) as [[rest|e] s2];
      cbn [snd] in Hf; destruct Hf as (_ & _ & F2 & N2 & M2 & _);
      [|rewrite Hc; cbn [snd]; repeat split; congruence].
    destruct (funpack fmt_L (upto 4 rest)) as [l|];
      [|rewrite Hc; cbn [snd]; repeat split; congruence].
    destruct (List.length rest =? 4)%nat; rewrite Hc; cbn [snd];
      [destruct dump|]; cbn; repeat split; congruence. }
  cbn zeta. destruct (H f) as (Hn & Hm & Hf).
  split; [exact Hn|]. split; [exact Hm|]. split; [exact Hf|].
  destruct (H (Some 0)) as (_ & _ & H0). exact H0.
Qed.

(** X10. A parse that fails before the check for trailing data (any
    error but [AssertionError]) has not reached the line that empties
    the cache: the object then holds the buffer passed as [raw], if one
    was passed, together with the hash cached before the call, and
    [hash] still returns that old value. *)
Theorem failed_parse_keeps_cache {E : BitcoinEncoding} {X : Imported}
    (raw : option bytes) (dump : bool) (f : option Z)
    (s s' : Transaction) (e : exn) :
  disassemble raw dump f s = (Raise e, s') ->
  e <> AssertionError ->
  _hash s' = _hash s
  /\ _raw s' = (if truthy_bytes raw then raw else _raw s)
  /\ locktime s' = locktime s
  /\ (forall h, _hash s = Some h -> hash s' = (Ok h, s')).
Proof.
  intros Hrun He.
  assert (H3 : _hash s' = _hash s
               /\ _raw s' = (if truthy_bytes raw then raw else _raw s)
               /\ locktime s' = locktime s).
  { pose proof (disassemble_cases raw dump f s) as Hc. cbn zeta in Hc.
    remember (if truthy_bytes raw
              then set_raw raw
                     (if truthy_int f then set_fees f s else s)
              else if truthy_int f then set_fees f s else s)
      as s1 eqn:Hs1.
    assert (H1 : _hash s1 = _hash s
                 /\ _raw s1 = (if truthy_bytes raw then raw else _raw s)
                 /\ locktime s1 = locktime s)
      by (subst s1; destruct (truthy_int f), (truthy_bytes raw);
          cbn; auto).
    clear Hs1. destruct H1 as (A1 & B1 & C1).
    destruct (_raw s1) as [data|] eqn:Hr1.
    2: { rewrite Hc in Hrun. injection Hrun as _ <-. rewrite <- B1. auto. }
    pose proof (disassemble_fields_frame data s1) as Hf. cbn zeta in Hf.
    destruct (disassemble_fields data s1) as [[rest|e2] s2];
      cbn [snd] in Hf; destruct Hf as (R2 & H2 & _ & _ & _ & L2).
    2: { rewrite Hc in Hrun. injection Hrun as _ <-.
         repeat split; congruence. }
    destruct (funpack fmt_L (upto 4 rest)) as [l|].
    2: { rewrite Hc in Hrun. injection Hrun as _ <-.
         repeat split; congruence. }
    destruct (List.length rest =? 4)%nat; rewrite Hc in Hrun;
      [discriminate|].
    injection Hrun as <- _. contradiction. }
  destruct H3 as (Hh & Hr & Hl).
  split; [exact Hh|]. split; [exact Hr|]. split; [exact Hl|].
  intros h Hs. rewrite hash_unfold, Hh, Hs. reflexivity.
Qed.

Lemma failed_parse_keeps_cache_witness :
  let s := {| _raw := Some [x07]; inputs := []; outputs := [];
              locktime := 0; n_time := None; fees := None;
              version := None; _hash := Some [xaa; xbb];
              transaction_message := None |} in
  _raw (snd (disassemble (E := compact_size) (Some [x01; x02]) false
               None s)) = Some [x01; x02]
  /\ _hash (snd (disassemble (E := compact_size) (Some [x01; x02]) false
                   None s)) = Some [xaa; xbb].
Proof.
  intros s.
  destruct (failed_parse_keeps_cache (E := compact_size)
              (X := sample_imports) (Some [x01; x02]) false None s
              (snd (disassemble (E := compact_size) (Some [x01; x02])
                      false None s))
              StructError eq_refl ltac:(discriminate))
    as (Hh & Hr & _).
  split; [exact Hr|exact Hh].
Defined.

(** X11. [dump_raw] changes nothing about the parse: the outcome is the
    same with and without it, and after a failure so is the object.
    After a success the only difference is that the buffer is gone;
    [hash] and [to_dict] then raise [TypeError] until the buffer is
    assembled again. *)
Theorem dump_raw_drops_buffer {E : BitcoinEncoding} {X : Imported}
    (raw : option bytes) (f : option Z) (s : Transaction) :
  fst (disassemble raw true f s) = fst (disassemble raw false f s)
  /\ (forall e, fst (disassemble raw false f s) = Raise e ->
        snd (disassemble raw true f s) = snd (disassemble raw false f s))
  /\ (fst (disassemble raw false f s) = Ok tt ->
      let s' := snd (disassemble raw true f s) in
      s' = set_raw None (snd (disassemble raw false f s))
      /\ hash s' = (Raise TypeError, s')
      /\ to_dict s' = (Raise TypeError, s')).
Proof.
  pose proof (disassemble_cases raw true f s) as Ht.
  pose proof (disassemble_cases raw false f s) as Hf.
  cbn zeta in Ht, Hf.
  remember (if truthy_bytes raw
            then set_raw raw (if truthy_int f then set_fees f s else s)
            else if truthy_int f then set_fees f s else s) as s1.
  assert (Hfail : forall (e : exn) (u : Transaction),
             disassemble raw true f s = (Raise e, u) ->
             disassemble raw false f s = (Raise e, u) ->
             fst (disassemble raw true f s)
             = fst (disassemble raw false f s)
             /\ (forall e0, fst (disassemble raw false f s) = Raise e0 ->
                   snd (disassemble raw true f s)
                   = snd (disassemble raw false f s))
             /\ (fst (disassemble raw false f s) = Ok tt ->
                 let s' := snd (disassemble raw true f s) in
                 s' = set_raw None (snd (disassemble raw false f s))
                 /\ hash s' = (Raise TypeError, s')
                 /\ to_dict s' = (Raise TypeError, s'))).
  { intros e u -> ->. cbn [fst snd].
    split; [reflexivity|]. split; [reflexivity|discriminate]. }
  destruct (_raw s1) as [data|]; [|now apply (Hfail TypeError s1)].
  destruct (disassemble_fields data s1) as [[rest|e2] s2];
    [|now apply (Hfail e2 s2)].
  destruct (funpack fmt_L (upto 4 rest)) as [l|];
    [|now apply (Hfail e s2)].
  destruct (List.length rest =? 4)%nat;
    [|now apply (Hfail AssertionError
                   (set_hash None (set_locktime l s2)))].
  rewrite Ht, Hf. cbn [fst snd].
  split; [reflexivity|]. split; [discriminate|].
  intros _. cbn zeta. split; [reflexivity|]. split.
  - rewrite hash_unfold. reflexivity.
  - unfold to_dict. rewrite bind_get. reflexivity.
Qed.

(** X12. [disassemble] with no buffer, stored or passed, raises
    [TypeError]; with a buffer of fewer than four bytes it raises
    [struct.error].  In both cases version, inputs, outputs, lock time
    and the cached hash are as before the call. *)
Theorem disassemble_short_buffer {E : BitcoinEncoding}
    (raw : option bytes) (dump : bool) (f : option Z) (s : Transaction) :
  let buffer := if truthy_bytes raw then raw else _raw s in
  let s' := snd (disassemble raw dump f s) in
  match buffer with
  | None => fst (disassemble raw dump f s) = Raise TypeError
  | Some data =>
      (List.length data < 4)%nat ->
      fst (disassemble raw dump f s) = Raise StructError
  end
  /\ (match buffer with
      | None => True
      | Some data => (List.length data < 4)%nat
      end ->
      version s' = version s /\ inputs s' = inputs s
      /\ outputs s' = outputs s /\ locktime s' = locktime s
      /\ _hash s' = _hash s).
Proof.
  cbn zeta. rewrite disassemble_unfold. cbn zeta.
  remember (if truthy_bytes raw
            then set_raw raw (if truthy_int f then set_fees f s else s)
            else if truthy_int f then set_fees f s else s) as s1 eqn:Hs1.
  assert (H1 : _raw s1 = (if truthy_bytes raw then raw else _raw s)
               /\ version s1 = version s /\ inputs s1 = inputs s
               /\ outputs s1 = outputs s /\ locktime s1 = locktime s
               /\ _hash s1 = _hash s)
    by (subst s1; destruct (truthy_int f), (truthy_bytes raw);
        cbn; auto 10).
  clear Hs1. destruct H1 as (Hr & Hrest). rewrite <- Hr.
  destruct (_raw s1) as [data|]; [|split; [reflexivity|intros _; exact Hrest]].
  assert (Hshort : (List.length data < 4)%nat ->
                   (d <- disassemble_fields data ;;
                    disassemble_locktime dump d) s1
                   = (Raise StructError, s1)).
  { intros Hl. unfold bind at 1. unfold disassemble_fields.
    rewrite bind_lift. unfold funpack.
    rewrite unpack_short; [reflexivity|].
    unfold upto. rewrite length_firstn. cbn [width]. lia. }
  split.
  - intros Hl. now rewrite Hshort.
  - intros Hl. rewrite Hshort by exact Hl. exact Hrest.
Qed.

Lemma dump_raw_drops_buffer_witness :
  hash (X := sample_imports)
       (snd (disassemble (E := compact_size) (Some scenario_buffer) true
               None
               {| _raw := None; inputs := []; outputs := [];
                  locktime := 0; n_time := None; fees := None;
                  version := None; _hash := None;
                  transaction_message := None |}))
  = (Raise TypeError,
     snd (disassemble (E := compact_size) (Some scenario_buffer) true
            None
            {| _raw := None; inputs := []; outputs := [];
               locktime := 0; n_time := None; fees := None;
               version := None; _hash := None;
               transaction_message := None |})).
Proof.
  refine (proj1 (proj2 (proj2 (proj2
            (dump_raw_drops_buffer (E := compact_size)
               (X := sample_imports) (Some scenario_buffer) None _))
            _))).
  reflexivity.
Defined.

Lemma disassemble_short_buffer_witness :
  fst (disassemble (E := compact_size) (Some [x01; x00; x00]) false None
         {| _raw := None; inputs := []; outputs := []; locktime := 0;
            n_time := None; fees := None; version := None;
            _hash := None; transaction_message := None |})
  = Raise StructError.
Proof.
  refine (proj1 (disassemble_short_buffer (E := compact_size)
                   (Some [x01; x00; x00]) false None _) _).
  cbn. lia.
Defined.

(** ** Coinbase inputs and the split for the extra nonce *)

(** X13. [Input.coinbase], when the script builder returns, gives an
    input with the null hash, index [0xFFFFFFFF] and sequence number 0
    whose script is the push script followed by [extra_script_sig];
    [addtl_push] given as [None] or as the empty list makes no
    difference.  A transaction whose first input it is reports
    [is_coinbase]; if the script builder raises, so does
    [coinbase]. *)
Theorem coinbase_is_coinbase {S : Scripting} (height : item)
    (addtl_push : option (list item)) (extra : bytes) :
  coinbase height None extra = coinbase height (Some []) extra
  /\ (forall i : Input,
        coinbase height addtl_push extra = Ok i ->
        prevout_hash i = repeat x00 32
        /\ prevout_idx i = 0xFFFFFFFF
        /\ seqno i = 0
        /\ (exists push,
              create_push_script
                (height :: match addtl_push with
                           | Some l => l
                           | None => []
                           end) = Ok push
              /\ script_sig i = push ++ extra)
        /\ forall (others : list Input) (s : Transaction),
             is_coinbase (set_inputs (i :: others) s)
             = (Ok true, set_inputs (i :: others) s))
  /\ (forall e : exn,
        create_push_script
          (height :: match addtl_push with
                     | Some l => l
                     | None => []
                     end) = Raise e ->
        coinbase height addtl_push extra = Raise e).
Proof.
  assert (Hl : match addtl_push with
               | Some (x :: l) => x :: l
               | _ => []
               end
               = match addtl_push with Some l => l | None => [] end)
    by (destruct addtl_push as [[|x l]|]; reflexivity).
  split; [reflexivity|]. unfold coinbase. rewrite Hl. split.
  - intros i.
    destruct (create_push_script _) as [push|]; [|discriminate].
    cbn [bindR]. intros [= <-]. cbn.
    split; [reflexivity|]. split; [reflexivity|]. split; [reflexivity|].
    split; [now exists push|]. intros others s. reflexivity.
  - intros e ->. reflexivity.
Qed.

Lemma coinbase_is_coinbase_witness :
  exists i,
    coinbase (S := sample_scripting) 7 (Some [1; 2]) [xee] = Ok i
    /\ script_sig i = [x01; x07; x01; x01; x01; x02] ++ [xee].
Proof.
  eexists. split; [reflexivity|].
  destruct (proj1 (proj2 (coinbase_is_coinbase (S := sample_scripting)
                            7 (Some [1; 2]) [xee])) _ eq_refl)
    as (_ & _ & _ & (push & Hp & Hs) & _).
  rewrite Hs. injection Hp as <-. reflexivity.
Defined.

Section ExtraNonce.

Context {E : BitcoinEncoding} {X : Imported}.

(** Two runs of the input loop on lists that differ in the last script
    only, by scripts of one length. *)
Lemma assemble_inputs_last_script (pre : list Input) (last last' : Input)
    (data d : bytes) (sp sp' : option nat) :
  prevout_hash last' = prevout_hash last ->
  prevout_idx last' = prevout_idx last ->
  seqno last' = seqno last ->
  List.length (script_sig last') = List.length (script_sig last) ->
  assemble_inputs (pre ++ [last]) data sp = Ok (d, sp') ->
  exists head sq,
    pack fmt_L (seqno last) = Ok sq
    /\ d = (data ++ head ++ script_sig last) ++ sq
    /\ sp' = Some (List.length (data ++ head ++ script_sig last))
    /\ assemble_inputs (pre ++ [last']) data sp
       = Ok ((data ++ head ++ script_sig last') ++ sq,
             Some (List.length (data ++ head ++ script_sig last'))).
Proof.
  intros Hh Hi Hs Hl. revert data sp.
  induction pre as [|i pre IH]; intros data sp.
  - cbn [app assemble_inputs]. rewrite Hh, Hi, Hs, Hl.
    destruct (pack fmt_L (prevout_idx last)) as [idx|]; [|discriminate].
    cbn [bindR].
    destruct (varlen_encode _) as [len|]; [|discriminate].
    cbn [bindR].
    destruct (pack fmt_L (seqno last)) as [sq|] eqn:Hsq; [|discriminate].
    cbn [bindR]. intros [= <- <-].
    exists (prevout_hash last ++ idx ++ len), sq.
    rewrite <- !app_assoc. auto.
  - cbn [app assemble_inputs].
    destruct (pack fmt_L (prevout_idx i)) as [idx|]; [|discriminate].
    cbn [bindR].
    destruct (varlen_encode _) as [len|]; [|discriminate].
    cbn [bindR].
    destruct (pack fmt_L (seqno i)) as [sqi|]; [|discriminate].
    cbn [bindR]. intros H.
    apply IH in H as (head & sq & Hsq & -> & -> & Hrun).
    exists (prevout_hash i ++ idx ++ len ++ script_sig i ++ sqi ++ head), sq.
    rewrite Hrun, <- !app_assoc. auto.
Qed.

End ExtraNonce.

(** X14. Take a transaction whose last input has the script
    [common ++ extra1], and replace that script by [common ++ extra2]
    with [extra2] as long as [extra1].  If [assemble(split=True)]
    returns on the first, it returns on the second with the same second
    part, and the two first parts are one common prefix followed by
    [extra1] and by [extra2]: the bytes at the end of the last script
    are the only ones that change. *)
Theorem split_isolates_last_script {E : BitcoinEncoding} {X : Imported}
    (s : Transaction) (pre : list Input) (last : Input)
    (common extra1 extra2 : bytes) (first second : bytes)
    (s1 : Transaction) :
  inputs s = pre ++ [last] ->
  script_sig last = common ++ extra1 ->
  List.length extra2 = List.length extra1 ->
  assemble true s = (Ok (Halves first second), s1) ->
  exists prefix,
    first = prefix ++ extra1
    /\ fst (assemble true
              (set_inputs
                 (pre ++ [{| prevout_hash := prevout_hash last;
                             prevout_idx := prevout_idx last;
                             script_sig := common ++ extra2;
                             seqno := seqno last |}]) s))
       = Ok (Halves (prefix ++ extra2) second).
Proof.
  intros Hin Hsig Hlen Hrun.
  destruct (assemble_state _ _ _ _ Hrun) as (data & sp & Hd & _ & Hres).
  injection Hres as -> ->.
  set (last' := {| prevout_hash := prevout_hash last;
                   prevout_idx := prevout_idx last;
                   script_sig := common ++ extra2;
                   seqno := seqno last |}).
  set (s' := set_inputs (pre ++ [last']) s).
  assert (Hdv : default_version s'
                = set_inputs (pre ++ [last']) (default_version s)).
  { unfold default_version, s'. cbn [version transaction_message set_inputs].
    destruct (version s); [reflexivity|].
    now destruct (transaction_message s). }
  destruct (default_version_frame s) as (_ & _ & Hi & _).
  rewrite assemble_unfold, Hdv.
  unfold assemble_data in Hd |- *.
  assert (Hhd : assemble_header
                  (set_inputs (pre ++ [last']) (default_version s))
                = assemble_header (default_version s)).
  { unfold assemble_header. cbn [version n_time inputs set_inputs].
    rewrite Hi, Hin, !length_app. reflexivity. }
  rewrite Hhd.
  destruct (assemble_header (default_version s)) as [hd|]; [|discriminate].
  cbn [bindR] in Hd |- *. cbn [inputs set_inputs].
  rewrite Hi, Hin in Hd.
  destruct (assemble_inputs (pre ++ [last]) hd None) as [[d1 sp1]|] eqn:Hl1;
    [|discriminate].
  cbn [bindR] in Hd.
  assert (Hll : List.length (script_sig last')
                = List.length (script_sig last)).
  { unfold last'. cbn [script_sig]. rewrite Hsig, !length_app. lia. }
  destruct (assemble_inputs_last_script pre last last' hd d1 None sp1
              eq_refl eq_refl eq_refl Hll Hl1)
    as (head & sq & Hsq & -> & -> & Hrun2).
  rewrite Hrun2. cbn [bindR].
  assert (Hrest : forall d0,
             assemble_rest
               (set_inputs (pre ++ [last']) (default_version s)) d0
             = assemble_rest (default_version s) d0) by reflexivity.
  rewrite Hrest.
  rewrite assemble_rest_acc in Hd.
  rewrite (assemble_rest_acc (default_version s)).
  destruct (assemble_rest (default_version s) []) as [tl|]; [|discriminate].
  cbn [bindR] in Hd |- *. injection Hd as <- <-.
  cbn [fst slice_to slice_from]. unfold upto, from.
  rewrite <- !app_assoc.
  replace (hd ++ head ++ script_sig last ++ sq ++ tl)
    with ((hd ++ head ++ script_sig last) ++ sq ++ tl)
    by now rewrite <- !app_assoc.
  replace (hd ++ head ++ script_sig last' ++ sq ++ tl)
    with ((hd ++ head ++ script_sig last') ++ sq ++ tl)
    by now rewrite <- !app_assoc.
  rewrite !firstn_exact, !skipn_exact.
  exists (hd ++ head ++ common).
  unfold last'. cbn [script_sig]. rewrite Hsig, <- !app_assoc.
  split; reflexivity.
Qed.

Lemma split_isolates_last_script_witness :
  let coin := {| prevout_hash := repeat x00 32; prevout_idx := 4294967295;
                 script_sig := [x01; x07] ++ [xaa; xbb]; seqno := 0 |} in
  let s := {| _raw := None; inputs := [coin];
              outputs := [{| amount := 50; script_pub_key := [] |}];
              locktime := 0; n_time := None; fees := None;
              version := None; _hash := None;
              transaction_message := None |} in
  exists prefix second,
    fst (assemble (E := compact_size) (X := sample_imports) true s)
    = Ok (Halves (prefix ++ [xaa; xbb]) second)
    /\ fst (assemble (E := compact_size) (X := sample_imports) true
              (set_inputs
                 [{| prevout_hash := repeat x00 32;
                     prevout_idx := 4294967295;
                     script_sig := [x01; x07] ++ [xcc; xdd];
                     seqno := 0 |}] s))
       = Ok (Halves (prefix ++ [xcc; xdd]) second).
Proof.
  intros coin s.
  destruct (assemble (E := compact_size) (X := sample_imports) true s)
    as [[[whole|first second]|e] s1] eqn:Hrun;
    try (vm_compute in Hrun; discriminate).
  destruct (split_isolates_last_script (E := compact_size)
              (X := sample_imports) s [] coin [x01; x07] [xaa; xbb]
              [xcc; xdd] first second s1 eq_refl eq_refl eq_refl Hrun)
    as (prefix & -> & H2).
  exists prefix, second. split; [reflexivity|exact H2].
Defined.

(** ** Where the optional fields go *)

Section OptionalFields.

Context {E : BitcoinEncoding} {X : Imported}.

Lemma assemble_inputs_shift (ins : list Input) (data d : bytes)
    (sp sp' : option nat) :
  assemble_inputs ins data sp = Ok (d, sp') ->
  exists w,
    d = data ++ w
    /\ forall (data2 : bytes) (sp2 : option nat),
         exists sp2',
           assemble_inputs ins data2 sp2 = Ok (data2 ++ w, sp2').
Proof.
  revert data sp. induction ins as [|i ins IH]; intros data sp.
  - cbn. intros [= <- _]. exists []. split; [now rewrite app_nil_r|].
    intros data2 sp2. exists sp2. now rewrite app_nil_r.
  - cbn [assemble_inputs].
    destruct (pack fmt_L (prevout_idx i)) as [idx|]; [|discriminate].
    cbn [bindR].
    destruct (varlen_encode _) as [len|]; [|discriminate].
    cbn [bindR].
    destruct (pack fmt_L (seqno i)) as [sq|]; [|discriminate].
    cbn [bindR]. intros H.
    apply IH in H as (w & -> & Hw).
    exists (prevout_hash i ++ idx ++ len ++ script_sig i ++ sq ++ w).
    split; [now rewrite <- !app_assoc|].
    intros data2 sp2.
    destruct (Hw ((((data2 ++ prevout_hash i) ++ idx) ++ len)
                    ++ script_sig i ++ sq)
                 (Some (List.length
                          ((((data2 ++ prevout_hash i) ++ idx) ++ len)
                           ++ script_sig i)))) as [sp2' Hrun].
    exists sp2'. rewrite <- !app_assoc in *. exact Hrun.
Qed.

Lemma assemble_rest_message (s : Transaction) (m data : bytes) :
  transaction_message s = None ->
  assemble_rest (set_transaction_message (Some m) s) data
  = let? d := assemble_rest s data in Ok (d ++ ser_string m).
Proof.
  unfold assemble_rest.
  cbn [outputs locktime transaction_message set_transaction_message].
  intros ->.
  destruct (varlen_encode (N.of_nat (List.length (outputs s))))
    as [co|]; [|reflexivity].
  cbn [bindR].
  destruct (assemble_outputs (outputs s) (data ++ co)) as [d2|];
    [|reflexivity].
  cbn [bindR].
  now destruct (pack fmt_L (locktime s)).
Qed.

Lemma default_version_set (s : Transaction) (v : Z) :
  version s = Some v -> default_version s = s.
Proof. unfold default_version. now intros ->. Qed.

End OptionalFields.

(** X15. For a transaction with an explicit version and neither
    optional field, on which [assemble()] returns the buffer [d0]:
    enabling the message appends [ser_string(message)] to [d0] and
    changes nothing else; enabling the time stamp inserts its four
    bytes right after the four version bytes of [d0], and raises
    [struct.error] when the time stamp is not a signed 32-bit value. *)
Theorem optional_fields_layout {E : BitcoinEncoding} {X : Imported}
    (s s0 : Transaction) (v : Z) (d0 : bytes) :
  version s = Some v ->
  n_time s = None ->
  transaction_message s = None ->
  assemble false s = (Ok (Whole d0), s0) ->
  (forall m : bytes,
     fst (assemble false (set_transaction_message (Some m) s))
     = Ok (Whole (d0 ++ ser_string m)))
  /\ (forall t : Z,
        fst (assemble false (set_n_time (Some t) s))
        = if in_range fmt_i t
          then Ok (Whole (upto 4 d0
                          ++ le_bytes 4 (t mod 2 ^ 32) ++ from 4 d0))
          else Raise StructError).
Proof.
  intros Hv Hn Hm Hrun.
  destruct (assemble_state _ _ _ _ Hrun) as (data & sp & Hd & _ & Hres).
  injection Hres as <-.
  rewrite (default_version_set s v Hv) in Hd.
  unfold assemble_data, assemble_header in Hd. rewrite Hv, Hn in Hd.
  destruct (pack fmt_L v) as [ver|] eqn:Hpv; [|discriminate].
  cbn [bindR] in Hd.
  destruct (varlen_encode (N.of_nat (List.length (inputs s))))
    as [cnt|] eqn:Hcnt; [|discriminate].
  cbn [bindR] in Hd.
  destruct (assemble_inputs (inputs s) (ver ++ cnt) None)
    as [[d1 sp1]|] eqn:Hin; [|discriminate].
  cbn [bindR] in Hd. rewrite assemble_rest_acc in Hd.
  destruct (assemble_rest s []) as [tl|] eqn:Hrest; [|discriminate].
  cbn [bindR] in Hd. injection Hd as <- <-.
  destruct (assemble_inputs_shift _ _ _ _ _ Hin) as (w & -> & Hw).
  pose proof (pack_length _ _ _ Hpv) as Lver. cbn [width] in Lver.
  split.
  - intros m. rewrite assemble_unfold.
    rewrite (default_version_set _ v) by exact Hv.
    unfold assemble_data, assemble_header.
    cbn [version n_time inputs set_transaction_message].
    rewrite Hv, Hn, Hpv. cbn [bindR]. rewrite Hcnt. cbn [bindR].
    rewrite Hin. cbn [bindR].
    rewrite (assemble_rest_message s m _ Hm), assemble_rest_acc, Hrest.
    reflexivity.
  - intros t. rewrite assemble_unfold.
    rewrite (default_version_set _ v) by exact Hv.
    unfold assemble_data, assemble_header.
    cbn [version n_time inputs set_n_time].
    rewrite Hv, Hpv. cbn [bindR]. unfold pack at 1.
    destruct (in_range fmt_i t); [|reflexivity].
    cbn [bindR]. rewrite Hcnt. cbn [bindR].
    destruct (Hw ((ver ++ le_bytes (width fmt_i) (t mod modulus fmt_i))
                    ++ cnt) None) as [sp2 ->].
    cbn [bindR].
    assert (Hr : forall d, assemble_rest (set_n_time (Some t) s) d
                           = assemble_rest s d) by reflexivity.
    rewrite Hr, assemble_rest_acc, Hrest. cbn [bindR fst].
    do 2 f_equal. rewrite <- !app_assoc.
    rewrite (upto_front 4) by exact Lver.
    rewrite (from_front 4) by exact Lver.
    reflexivity.
Qed.

Lemma optional_fields_layout_witness :
  let s := {| _raw := None; inputs := [];
              outputs := [{| amount := 1; script_pub_key := [x51] |}];
              locktime := 0; n_time := None; fees := None;
              version := Some 1; _hash := None;
              transaction_message := None |} in
  exists d0,
    fst (assemble (E := compact_size) (X := sample_imports) false s)
    = Ok (Whole d0)
    /\ fst (assemble (E := compact_size) (X := sample_imports) false
              (set_transaction_message (Some [x68; x69]) s))
       = Ok (Whole (d0 ++ [x02; x68; x69])).
Proof.
  intros s.
  destruct (assemble (E := compact_size) (X := sample_imports) false s)
    as [[[d0|a b]|e] s0] eqn:Hrun;
    try (vm_compute in Hrun; discriminate).
  exists d0. split; [reflexivity|].
  exact (proj1 (optional_fields_layout (E := compact_size)
                  (X := sample_imports) s s0 1 d0 eq_refl eq_refl eq_refl
                  Hrun) [x68; x69]).
Defined.

(** ** The hash across a round trip *)

Section SameHash.

Context {E : BitcoinEncoding} {X : Imported}.

(** The serialiser reads six attributes and nothing else. *)
Lemma assemble_data_ext (s s' : Transaction) :
  version s' = version s -> n_time s' = n_time s ->
  inputs s' = inputs s -> outputs s' = outputs s ->
  locktime s' = locktime s ->
  transaction_message s' = transaction_message s ->
  assemble_data s' = assemble_data s.
Proof.
  destruct s, s'. cbn. intros -> -> -> -> -> ->. reflexivity.
Qed.

(** A parse that returns and keeps the buffer. *)
Lemma parse_run_frame (data : bytes) (s s' : Transaction) :
  (d <- disassemble_fields data ;; disassemble_locktime false d) s
  = (Ok tt, s') ->
  _raw s' = _raw s /\ _hash s' = None /\ n_time s' = n_time s
  /\ transaction_message s' = transaction_message s.
Proof.
  pose proof (disassemble_fields_frame data s) as Hf. cbn zeta in Hf.
  destruct (disassemble_fields data s) as [[rest|e] s3] eqn:Hfe.
  2: { unfold bind. rewrite Hfe. discriminate. }
  cbn [snd] in Hf. destruct Hf as (R3 & _ & _ & N3 & M3 & _).
  rewrite (bind_run _ _ _ _ _ Hfe).
  unfold disassemble_locktime. rewrite bind_lift.
  destruct (funpack fmt_L (upto 4 rest)) as [l|]; [|discriminate].
  rewrite !bind_modify.
  destruct (List.length rest =? 4)%nat; [|discriminate].
  rewrite bind_ret. cbn [when]. intros [= <-]. cbn. auto.
Qed.

End SameHash.

(** X16. Let [t] be well formed, without time stamp and message, and let
    [assemble()] on it return [data].  An object constructed from
    [data] with [disassemble=True] (and neither optional field) has the
    same hash as [t], and [assemble()] on it returns [data] again. *)
Theorem roundtrip_keeps_hash {E : BitcoinEncoding} {X : Imported}
    (t t1 t2 : Transaction) (data : bytes) (fees : option Z) :
  well_formed t = true ->
  n_time t = None ->
  transaction_message t = None ->
  assemble false t = (Ok (Whole data), t1) ->
  __init__ (PyNewbytes data) fees true false false = Ok t2 ->
  fst (hash t2) = Ok (rev (sha256 (sha256 data)))
  /\ fst (hash t2) = fst (hash t1)
  /\ fst (assemble false t2) = Ok (Whole data).
Proof.
  intros Hw Hn Hm Hrun Hinit.
  destruct (assemble_state _ _ _ _ Hrun) as (d & sp & Hd & -> & Hres).
  injection Hres as <-.
  destruct (default_version_frame t)
    as (_ & _ & Hi & Ho & Hl & Hnt & _ & Hmsg).
  assert (Hvi : forallb valid_input (inputs (default_version t)) = true).
  { rewrite Hi. unfold well_formed in Hw.
    repeat (apply andb_true_iff in Hw as [Hw _]). exact Hw. }
  rewrite <- Hnt in Hn. rewrite <- Hmsg in Hm.
  destruct (parse_assembled _ _ _ Hvi Hn Hm Hd) as [Hne Hparse].
  unfold __init__ in Hinit. cbn [truthy] in Hinit.
  destruct data as [|x data']; [contradiction|].
  cbn [List.length Nat.eqb negb bindR] in Hinit.
  rewrite disassemble_unfold in Hinit. cbn zeta in Hinit.
  cbn [truthy_int truthy_bytes _raw] in Hinit.
  match type of Hinit with
  | context [(_ <- disassemble_fields _ ;; _) ?s] =>
      destruct (Hparse false s) as (s2 & Hs2 & Hi2 & Ho2 & Hl2 & Hv2);
      destruct (parse_run_frame _ _ _ Hs2) as (R2 & H2 & N2 & M2)
  end.
  rewrite Hs2 in Hinit. injection Hinit as <-.
  cbn [_raw n_time transaction_message] in R2, N2, M2.
  assert (Hh2 : hash s2
                = (Ok (rev (sha256 (sha256 (x :: data')))),
                   set_hash (Some (rev (sha256 (sha256 (x :: data')))))
                     s2)).
  { rewrite hash_unfold, H2, R2. reflexivity. }
  split; [now rewrite Hh2|]. split.
  - rewrite Hh2, hash_unfold. reflexivity.
  - rewrite assemble_unfold.
    assert (Hdv : default_version s2 = s2).
    { destruct (version (default_version t)) as [v|] eqn:Hv;
        [|unfold assemble_data, assemble_header in Hd;
          rewrite Hv in Hd; discriminate].
      apply (default_version_set _ v). exact Hv2. }
    rewrite Hdv.
    rewrite (assemble_data_ext (default_version t) s2);
      [now rewrite Hd|exact Hv2| |exact Hi2|exact Ho2|exact Hl2|].
    + now rewrite N2, Hn.
    + now rewrite M2, Hm.
Qed.

Lemma roundtrip_keeps_hash_witness :
  let t := {| _raw := None;
              inputs := [{| prevout_hash := repeat x00 32;
                            prevout_idx := 4294967295;
                            script_sig := [x51; x00];
                            seqno := 4294967295 |}];
              outputs := [{| amount := 0; script_pub_key := [] |}];
              locktime := 0; n_time := None; fees := None;
              version := Some 1; _hash := None;
              transaction_message := None |} in
  exists t2,
    __init__ (E := compact_size) (PyNewbytes scenario_buffer) None true
             false false = Ok t2
    /\ fst (assemble (E := compact_size) (X := sample_imports) false t2)
       = Ok (Whole scenario_buffer).
Proof.
  intros t. eexists. split; [reflexivity|].
  refine (proj2 (proj2
            (roundtrip_keeps_hash (E := compact_size)
               (X := sample_imports) t _ _ scenario_buffer None
               eq_refl eq_refl eq_refl eq_refl eq_refl))).
Defined.
